(** * x1e-ec-tool: a shallow embedding of [tool.py] and [effects.py]

    The Python program drives the embedded controller of a laptop over
    I2C.  This development embeds the numeric core (Python's [int] and
    [float] values, with binary64 arithmetic taken from the IEEE-754
    specification of the Standard Library), the bus layer, the fan and
    backlight commands, the two polling loops, the calibration routine
    and the command dispatcher, and proves properties of them. *)

From Stdlib Require Import ZArith List Bool String Ascii Lia Reals Lra.
From Stdlib Require Import Floats.SpecFloat.
Import ListNotations.

Local Open Scope Z_scope.

(** ** Exceptions and results *)

(** The Python exceptions the program can raise or let through. *)
Inductive exn : Type :=
| RuntimeError (msg : string)
| ValueError
| OverflowError
| ZeroDivisionError
| IndexError
| AttributeError
| KeyError
| OSError
| SystemExit (code : Z).

(** The result of evaluating a pure Python expression. *)
Inductive result (A : Type) : Type :=
| Ok (a : A)
| Raise (e : exn).
Arguments Ok {A} a.
Arguments Raise {A} e.

Definition rbind {A B : Type} (r : result A) (k : A -> result B) : result B :=
  match r with
  | Ok a => k a
  | Raise e => Raise e
  end.

Declare Scope result_scope.
Delimit Scope result_scope with result.
Notation "x <- r ;; k" :=
  (rbind r (fun x => k))
  (at level 61, r at next level, right associativity) : result_scope.

(** ** Python floats: IEEE-754 binary64 *)

Module PyFloat.

Definition prec : Z := 53.
Definition emax : Z := 1024.

Definition float : Type := spec_float.

Definition add : float -> float -> float := SFadd prec emax.
Definition sub : float -> float -> float := SFsub prec emax.
Definition mul : float -> float -> float := SFmul prec emax.
Definition fdiv : float -> float -> float := SFdiv prec emax.
Definition fsqrt : float -> float := SFsqrt prec emax.
Definition neg : float -> float := SFopp.

Definition is_nan (x : float) : bool :=
  match x with S754_nan => true | _ => false end.

Definition is_inf (x : float) : bool :=
  match x with S754_infinity _ => true | _ => false end.

(** Finite, in the sense of [math.isfinite]: neither NaN nor infinite. *)
Definition is_finite (x : float) : bool :=
  match x with
  | S754_zero _ | S754_finite _ _ _ => true
  | _ => false
  end.

(** The correctly rounded quotient [sign * num / den] of two positive
    integers: what [strtod] computes for a decimal literal and what
    Python's [int / int] computes. *)
Definition round_quotient (sign : bool) (num den : Z) : float :=
  let '(q, e, l) := SFdiv_core_binary prec emax num 0 den 0 in
  binary_round_aux prec emax sign q e l.

(** [float(z)] for a Python int: nearest binary64, ties to even;
    infinite when the integer is too large. *)
Definition of_Z (z : Z) : float := binary_normalize prec emax z 0 false.

(** The nearest integer to [m * 2^e], ties to even. *)
Definition round_half_even (m e : Z) : Z :=
  if 0 <=? e then m * 2 ^ e
  else
    let d := 2 ^ (- e) in
    let q := m / d in
    let r := m mod d in
    match 2 * r ?= d with
    | Lt => q
    | Gt => q + 1
    | Eq => if Z.even q then q else q + 1
    end.

(** [round(x)] with one argument: an int, or an exception for NaN and
    the infinities. *)
Definition round (x : float) : result Z :=
  match x with
  | S754_nan => Raise ValueError
  | S754_infinity _ => Raise OverflowError
  | S754_zero _ => Ok 0
  | S754_finite s m e => Ok (cond_Zopp s (round_half_even (Zpos m) e))
  end.

End PyFloat.

Import PyFloat.

(** ** Exact comparison of Python numbers *)

(** A number as an extended dyadic rational [m * 2^e]. *)
Inductive xval : Type :=
| XNaN
| XInf (negative : bool)
| XFin (m e : Z).

Definition xval_of_float (x : float) : xval :=
  match x with
  | S754_nan => XNaN
  | S754_infinity s => XInf s
  | S754_zero _ => XFin 0 0
  | S754_finite s m e => XFin (cond_Zopp s (Zpos m)) e
  end.

(** Compares [m1 * 2^e1] with [m2 * 2^e2] after scaling both to the
    smaller exponent. *)
Definition cmp_dyadic (m1 e1 m2 e2 : Z) : comparison :=
  let e := Z.min e1 e2 in
  (m1 * 2 ^ (e1 - e) ?= m2 * 2 ^ (e2 - e)).

Definition xcompare (x y : xval) : option comparison :=
  match x, y with
  | XNaN, _ | _, XNaN => None
  | XInf s1, XInf s2 =>
      Some (match s1, s2 with
            | true, false => Lt
            | false, true => Gt
            | _, _ => Eq
            end)
  | XInf s, XFin _ _ => Some (if s then Lt else Gt)
  | XFin _ _, XInf s => Some (if s then Gt else Lt)
  | XFin m1 e1, XFin m2 e2 => Some (cmp_dyadic m1 e1 m2 e2)
  end.

(** ** Python numbers *)

Inductive pynum : Type :=
| PInt (z : Z)
| PFloat (x : float).

Definition xval_of (a : pynum) : xval :=
  match a with
  | PInt z => XFin z 0
  | PFloat x => xval_of_float x
  end.

(** Rich comparison: exact, also between an int and a float; every
    comparison with NaN is false. *)
Definition py_compare (a b : pynum) : option comparison :=
  xcompare (xval_of a) (xval_of b).

Definition py_lt (a b : pynum) : bool :=
  match py_compare a b with Some Lt => true | _ => false end.
Definition py_gt (a b : pynum) : bool :=
  match py_compare a b with Some Gt => true | _ => false end.
Definition py_le (a b : pynum) : bool :=
  match py_compare a b with Some Lt | Some Eq => true | _ => false end.
Definition py_ge (a b : pynum) : bool :=
  match py_compare a b with Some Gt | Some Eq => true | _ => false end.
Definition py_eq (a b : pynum) : bool :=
  match py_compare a b with Some Eq => true | _ => false end.

(** [max(a, b)]: the first argument unless the second is greater. *)
Definition py_max (a b : pynum) : pynum := if py_gt b a then b else a.
(** [min(a, b)]: the first argument unless the second is smaller. *)
Definition py_min (a b : pynum) : pynum := if py_lt b a then b else a.

(** Conversion of an operand of mixed arithmetic to float. *)
Definition to_float (a : pynum) : result float :=
  match a with
  | PFloat x => Ok x
  | PInt z =>
      let x := of_Z z in
      if is_inf x then Raise OverflowError else Ok x
  end.

Definition py_arith (fi : Z -> Z -> Z) (ff : float -> float -> float)
    (a b : pynum) : result pynum :=
  match a, b with
  | PInt x, PInt y => Ok (PInt (fi x y))
  | _, _ =>
      (x <- to_float a ;;
       y <- to_float b ;;
       Ok (PFloat (ff x y)))%result
  end.

Definition py_add : pynum -> pynum -> result pynum := py_arith Z.add add.
Definition py_sub : pynum -> pynum -> result pynum := py_arith Z.sub sub.
Definition py_mul : pynum -> pynum -> result pynum := py_arith Z.mul mul.

(** [int / int]: the correctly rounded quotient. *)
Definition int_truediv (x y : Z) : result float :=
  if y =? 0 then Raise ZeroDivisionError
  else
    let s := xorb (x <? 0) (y <? 0) in
    if x =? 0 then Ok (S754_zero s)
    else
      let q := round_quotient s (Z.abs x) (Z.abs y) in
      if is_inf q then Raise OverflowError else Ok q.

(** True division [a / b]. *)
Definition py_truediv (a b : pynum) : result pynum :=
  match a, b with
  | PInt x, PInt y =>
      (q <- int_truediv x y ;; Ok (PFloat q))%result
  | _, _ =>
      (x <- to_float a ;;
       y <- to_float b ;;
       if py_eq (PFloat y) (PInt 0) then Raise ZeroDivisionError
       else Ok (PFloat (fdiv x y)))%result
  end.

Definition py_neg (a : pynum) : pynum :=
  match a with
  | PInt z => PInt (- z)
  | PFloat x => PFloat (neg x)
  end.

(** [round(a)] with one argument. *)
Definition py_round (a : pynum) : result Z :=
  match a with
  | PInt z => Ok z
  | PFloat x => round x
  end.

(** [math.sqrt(a)]: [ValueError] on a negative argument. *)
Definition math_sqrt (a : pynum) : result float :=
  (x <- to_float a ;;
   if py_lt (PFloat x) (PInt 0) then Raise ValueError
   else Ok (fsqrt x))%result.

(** ** Lists with Python indexing *)

(** [l[i]]: negative indices count from the end; [IndexError] outside. *)
Definition py_index {A : Type} (l : list A) (i : Z) : result A :=
  let n := Z.of_nat (List.length l) in
  let j := if i <? 0 then i + n else i in
  if (0 <=? j) && (j <? n) then
    match nth_error l (Z.to_nat j) with
    | Some a => Ok a
    | None => Raise IndexError
    end
  else Raise IndexError.

(** ** The polynomial of an RPM model: [re.fullmatch] and [float] *)

Module Poly.

Local Open Scope char_scope.

(** The character class [[-+0-9.e]] of the three groups. *)
Definition in_class (c : ascii) : bool :=
  match c with
  | "-" | "+" | "." | "e"
  | "0" | "1" | "2" | "3" | "4" | "5" | "6" | "7" | "8" | "9" => true
  | _ => false
  end.

Definition digit_val (c : ascii) : option Z :=
  match c with
  | "0" => Some 0%Z | "1" => Some 1%Z | "2" => Some 2%Z | "3" => Some 3%Z
  | "4" => Some 4%Z | "5" => Some 5%Z | "6" => Some 6%Z | "7" => Some 7%Z
  | "8" => Some 8%Z | "9" => Some 9%Z
  | _ => None
  end.

(** The longest prefix made of class characters, and the rest. *)
Fixpoint span_class (s : list ascii) : list ascii * list ascii :=
  match s with
  | c :: t =>
      if in_class c then let '(g, r) := span_class t in (c :: g, r)
      else ([], s)
  | [] => ([], [])
  end.

Fixpoint strip_prefix (p s : list ascii) : option (list ascii) :=
  match p, s with
  | [], _ => Some s
  | a :: p', b :: s' => if Ascii.eqb a b then strip_prefix p' s' else None
  | _ :: _, [] => None
  end.

(** One group [([-+0-9.e]+)] followed by the literal [sep].  The
    literal never starts with a class character, so the greedy group
    is the longest class prefix. *)
Definition group_then (sep s : list ascii) : option (list ascii * list ascii) :=
  let '(g, r) := span_class s in
  match g with
  | [] => None
  | _ => match strip_prefix sep r with
         | Some r' => Some (g, r')
         | None => None
         end
  end.

(** [re.fullmatch(r"([-+0-9.e]+)x\^2 ([-+0-9.e]+)x ([-+0-9.e]+)", s)]:
    the three groups, or [None]. *)
Definition quadratic_fullmatch (s : string)
  : option (list ascii * list ascii * list ascii) :=
  match group_then ["x"; "^"; "2"; " "] (list_ascii_of_string s) with
  | Some (g1, r1) =>
      match group_then ["x"; " "] r1 with
      | Some (g2, r2) =>
          match group_then [] r2 with
          | Some (g3, []) => Some (g1, g2, g3)
          | _ => None
          end
      | None => None
      end
  | None => None
  end.

Definition read_sign (s : list ascii) : bool * list ascii :=
  match s with
  | "-" :: t => (true, t)
  | "+" :: t => (false, t)
  | _ => (false, s)
  end.

(** Reads decimal digits: the number read so far, how many digits were
    read, and the rest. *)
Fixpoint read_digits (s : list ascii) (acc n : Z) : Z * Z * list ascii :=
  match s with
  | c :: t =>
      match digit_val c with
      | Some d => read_digits t (10 * acc + d)%Z (n + 1)%Z
      | None => (acc, n, s)
      end
  | [] => (acc, n, [])
  end.

(** The binary64 nearest to [(-1)^neg * m * 10^e]. *)
Definition float_of_decimal (neg : bool) (m e : Z) : float :=
  if (m =? 0)%Z then S754_zero neg
  else round_quotient neg (m * 10 ^ Z.max e 0)%Z (10 ^ Z.max (- e) 0)%Z.

(** [float(s)] for a string [s] over the class [[-+0-9.e]], which is
    what a group of the match holds: an optional sign, digits with an
    optional point, an optional exponent; [None] is [ValueError]. *)
Definition float_of_group (s : list ascii) : option float :=
  let '(neg, s1) := read_sign s in
  let '(ip, ni, s2) := read_digits s1 0%Z 0%Z in
  let '(mant, nf, s3) :=
    match s2 with
    | "." :: t => read_digits t ip 0%Z
    | _ => (ip, 0%Z, s2)
    end in
  if (ni + nf =? 0)%Z then None
  else
    match s3 with
    | [] => Some (float_of_decimal neg mant (- nf))
    | "e" :: t =>
        let '(eneg, t1) := read_sign t in
        let '(ev, ne, t2) := read_digits t1 0%Z 0%Z in
        if (ne =? 0)%Z then None
        else
          match t2 with
          | [] => Some (float_of_decimal neg mant (cond_Zopp eneg ev - nf))
          | _ => None
          end
    | _ => None
    end.

End Poly.

(** ** The device model table *)

(** One entry of [rpm_models]: the fitted polynomial as text, the
    lowest duty with a reading, the lowest duty at which the fan
    starts, and the RPM at full duty. *)
Record RpmModel : Type := {
  poly : string;
  first : Z;
  first_spin : Z;
  max_rpm : Z
}.

Record Model : Type := {
  profiles : list string;
  fans : list string;
  fan_blades : option (list Z);
  rpm_models : option (list (option RpmModel))
}.

Definition vivobook_s15 : Model := {|
  profiles := ["Whisper"; "Standard"; "Performance"; "Full speed"]%string;
  fans := ["Left Fan"; "Right Fan"]%string;
  fan_blades := Some [97; 97];
  rpm_models := Some [
    Some {| poly := "-0.06309x^2 +48.64x -174.4"; first := 17;
            first_spin := 22; max_rpm := 8340 |};
    Some {| poly := "-0.07043x^2 +56.12x -2255"; first := 55;
            first_spin := 59; max_rpm := 8400 |}]
|}.



Definition MODELS : list (string * Model) :=
  [("ASUS Vivobook S 15"%string, vivobook_s15)].

(** ** [speed_for_rpm] *)

Section SpeedForRpm.

Local Open Scope result_scope.

(** The coefficients [a, b, c] read from the polynomial text. *)
Definition coefficients (s : string) : result (float * float * float) :=
  match Poly.quadratic_fullmatch s with
  | None => Raise AttributeError
  | Some (g1, g2, g3) =>
      match Poly.float_of_group g1, Poly.float_of_group g2,
            Poly.float_of_group g3 with
      | Some a, Some b, Some c => Ok (a, b, c)
      | _, _, _ => Raise ValueError
      end
  end.

(** [b*b - 4*a*(c - rpm)] *)
Definition discriminant (a b c : float) (rpm : pynum) : result pynum :=
  bb <- py_mul (PFloat b) (PFloat b) ;;
  fa <- py_mul (PInt 4) (PFloat a) ;;
  cr <- py_sub (PFloat c) rpm ;;
  t <- py_mul fa cr ;;
  py_sub bb t.

(** The body of the [try]:
    [(-b + math.sqrt(b*b - 4*a*(c - rpm))) / (2*a)] *)
Definition solve (a b c : float) (rpm : pynum) : result pynum :=
  d <- discriminant a b c rpm ;;
  s <- math_sqrt d ;;
  n <- py_add (py_neg (PFloat b)) (PFloat s) ;;
  ta <- py_mul (PInt 2) (PFloat a) ;;
  py_truediv n ta.

(** The [try] statement: [val] is 256 when the root raised
    [ValueError]; any other exception passes through. *)
Definition solve_or_sentinel (a b c : float) (rpm : pynum) : result pynum :=
  match solve a b c rpm with
  | Raise ValueError => Ok (PInt 256)
  | r => r
  end.

(** [min(max(round(val), 0), 255)] *)
Definition clamp_duty (val : pynum) : result Z :=
  r <- py_round val ;;
  Ok (Z.min (Z.max r 0) 255).

(** The out-of-domain test that guards the warning. *)
Definition out_of_domain (model : RpmModel) (val : pynum) : bool :=
  py_lt val (PInt (first model)) || py_gt val (PInt 254).

(** [None if info.rpm_models is None else info.rpm_models[fan_id]] *)
Definition rpm_model_of (info : Model) (fan_id : Z) : result (option RpmModel) :=
  match rpm_models info with
  | None => Ok None
  | Some ms => py_index ms fan_id
  end.

(** [speed_for_rpm(fan_id, rpm)]: the duty, and whether the warning
    was printed. *)
Definition speed_for_rpm (info : Model) (fan_id : Z) (rpm : pynum)
  : result (Z * bool) :=
  model <- rpm_model_of info fan_id ;;
  match model with
  | None => Raise (RuntimeError "No fan RPM model defined")
  | Some model =>
      if py_eq rpm (PInt 0) then Ok (0, false)
      else
        abc <- coefficients (poly model) ;;
        let '(a, b, c) := abc in
        if py_ge (PFloat a) (PInt 0) then
          Raise (RuntimeError "Convex model unimplemented")
        else
          val <- solve_or_sentinel a b c rpm ;;
          let warned := out_of_domain model val in
          duty <- clamp_duty val ;;
          Ok (duty, warned)
  end.





End SpeedForRpm.

(** ** Strings as the program uses them *)

Module PyStr.

Local Open Scope char_scope.

Definition chars (s : string) : list ascii := list_ascii_of_string s.

Fixpoint drop_while (p : ascii -> bool) (s : list ascii) : list ascii :=
  match s with
  | c :: t => if p c then drop_while p t else s
  | [] => []
  end.

(** [s.strip(cs)]: removes the characters accepted by [p] at both ends. *)
Definition strip (p : ascii -> bool) (s : list ascii) : list ascii :=
  rev (drop_while p (rev (drop_while p s))).

Definition is_space (c : ascii) : bool :=
  match c with
  | " " | "009" | "010" | "011" | "012" | "013" => true
  | _ => false
  end.

(** The characters of [strip(" \n\0")]. *)
Definition is_space_nl_nul (c : ascii) : bool :=
  match c with
  | " " | "010" | "000" => true
  | _ => false
  end.

Definition is_hash (c : ascii) : bool := Ascii.eqb c "#".

Fixpoint starts_with (p s : list ascii) : bool :=
  match p, s with
  | [], _ => true
  | a :: p', b :: s' => Ascii.eqb a b && starts_with p' s'
  | _ :: _, [] => false
  end.

(** [s.split(sep)] for a one-character separator. *)
Fixpoint split_on (sep : ascii) (s : list ascii) : list (list ascii) :=
  match s with
  | [] => [[]]
  | c :: t =>
      if Ascii.eqb c sep then [] :: split_on sep t
      else
        match split_on sep t with
        | w :: ws => (c :: w) :: ws
        | [] => [[c]]
        end
  end.

(** Decimal digits with single underscores between them, as [int]
    accepts them: [prev_digit] tells whether the previous character
    was a digit. *)
Fixpoint int_digits (s : list ascii) (acc : Z) (prev_digit : bool)
  : option Z :=
  match s with
  | [] => if prev_digit then Some acc else None
  | c :: t =>
      match Poly.digit_val c with
      | Some d => int_digits t (10 * acc + d)%Z true
      | None =>
          if Ascii.eqb c "_" && prev_digit then
            match t with
            | [] => None
            | _ => int_digits t acc false
            end
          else None
      end
  end.

(** [int(s)] in base 10: surrounding white space, an optional sign,
    digits. *)
Definition int_of (s : list ascii) : result Z :=
  let '(neg, body) := Poly.read_sign (strip is_space s) in
  match int_digits body 0%Z false with
  | Some z => Ok (cond_Zopp neg z)
  | None => Raise ValueError
  end.

Definition hex_val (c : ascii) : option Z :=
  match c with
  | "a" | "A" => Some 10%Z | "b" | "B" => Some 11%Z | "c" | "C" => Some 12%Z
  | "d" | "D" => Some 13%Z | "e" | "E" => Some 14%Z | "f" | "F" => Some 15%Z
  | _ => Poly.digit_val c
  end.

(** [re.fullmatch('[0-9a-fA-F]{n}', s)] *)
Definition hex_fullmatch (n : nat) (s : list ascii) : bool :=
  Nat.eqb (List.length s) n
  && forallb (fun c => match hex_val c with Some _ => true | None => false end) s.

(** [int(s, 16)] on a string of hexadecimal digits. *)
Fixpoint hex_digits (s : list ascii) (acc : Z) : result Z :=
  match s with
  | [] => Ok acc
  | c :: t =>
      match hex_val c with
      | Some d => hex_digits t (16 * acc + d)%Z
      | None => Raise ValueError
      end
  end.

Definition int16_of (s : list ascii) : result Z :=
  match s with
  | [] => Raise ValueError
  | _ => hex_digits s 0%Z
  end.

End PyStr.

(** ** The machine the program runs on *)

(** What the I2C adapter answers to one [I2C_RDWR] transfer. *)
Inductive bus_reply : Type :=
| BusError
| BusData (payload : list Z).

(** What [os.pread] gives on a sensor file. *)
Inductive pread_reply : Type :=
| PreadError
| PreadBytes (content : string).

Record I2c_msg : Type := {
  addr : Z;
  flags : Z;
  len : Z;
  buf : list Z
}.

(** The environment and the trace.  The two scripts are what the
    hardware will answer, in the order of the calls; [bus_log] holds
    the transfers handed to the adapter, oldest first. *)
Record world : Type := {
  dt_model : string;
  i2c_dir : list string;
  dev_dash : list Z;
  dev_slash : list Z;
  claimed : list Z;
  sys_thermal : list (string * string);
  bus_script : list bus_reply;
  sensor_script : list pread_reply;
  bus_log : list (list I2c_msg)
}.

(** How a command ends: with a value, with an exception, or not at
    all within the scripted answers. *)
Inductive outcome (A : Type) : Type :=
| Done (a : A)
| Raised (e : exn)
| Unfinished.
Arguments Done {A} a.
Arguments Raised {A} e.
Arguments Unfinished {A}.

Definition M (A : Type) : Type := world -> outcome A * world.

Definition ret {A : Type} (a : A) : M A := fun w => (Done a, w).

Definition raise {A : Type} (e : exn) : M A := fun w => (Raised e, w).

Definition bind {A B : Type} (m : M A) (k : A -> M B) : M B :=
  fun w =>
    match m w with
    | (Done a, w') => k a w'
    | (Raised e, w') => (Raised e, w')
    | (Unfinished, w') => (Unfinished, w')
    end.

Definition lift {A : Type} (r : result A) : M A :=
  match r with
  | Ok a => ret a
  | Raise e => raise e
  end.

Declare Scope io_scope.
Delimit Scope io_scope with io.
Notation "x <- m ;; k" :=
  (bind m (fun x => k))
  (at level 61, m at next level, right associativity) : io_scope.
Notation "m ;;; k" :=
  (bind m (fun _ => k))
  (at level 61, right associativity) : io_scope.

(** [for x in l: body(x)] *)
Fixpoint for_each {A : Type} (l : list A) (body : A -> M unit) : M unit :=
  match l with
  | [] => ret tt
  | x :: t => bind (body x) (fun _ => for_each t body)
  end.

(** [time.sleep]: no effect on the bus or the sensors. *)
Definition sleep : M unit := ret tt.

(** ** The I2C layer *)

Definition BUSADDR : string := "b94000.i2c".
Definition I2C_M_RD : Z := 1.
Definition EC_ADDR : Z := 0x5b.
Definition FAN_ADDR : Z := 0x76.

Record Request : Type := {
  req_addr : Z;
  msgs : list I2c_msg
}.

Definition Request_new (a : Z) : Request := {| req_addr := a; msgs := [] |}.

(** [bytes(data)]: every item must be in [range(256)]. *)
Definition py_bytes (data : list Z) : result (list Z) :=
  if forallb (fun x => (0 <=? x) && (x <? 256)) data then Ok data
  else Raise ValueError.

Definition Request_write (r : Request) (data : list Z) : result Request :=
  rbind (py_bytes data) (fun d =>
    Ok {| req_addr := req_addr r;
          msgs := msgs r ++ [{| addr := req_addr r; flags := 0;
                                len := Z.of_nat (List.length d);
                                buf := d |}] |}).

(** A read segment into a [Buffer(n)], initially zeroed. *)
Definition Request_read (r : Request) (n : nat) : Request :=
  {| req_addr := req_addr r;
     msgs := msgs r ++ [{| addr := req_addr r; flags := I2C_M_RD;
                           len := Z.of_nat n; buf := repeat 0 n |}] |}.

Definition log_transfer (t : list I2c_msg) (w : world) : world :=
  {| dt_model := dt_model w; i2c_dir := i2c_dir w; dev_dash := dev_dash w;
     dev_slash := dev_slash w; claimed := claimed w;
     sys_thermal := sys_thermal w;
     bus_script := tl (bus_script w);
     sensor_script := sensor_script w;
     bus_log := bus_log w ++ [t] |}.

(** [send]: one [I2C_RDWR] ioctl.  The payload is what the adapter
    stored in the read buffer. *)
Definition Request_send (r : Request) : M (list Z) :=
  fun w =>
    match bus_script w with
    | [] => (Unfinished, w)
    | BusError :: _ => (Raised OSError, log_transfer (msgs r) w)
    | BusData p :: _ => (Done p, log_transfer (msgs r) w)
    end.

(** [Buffer(n).array()] after the transfer. *)
Definition Buffer_array (n : nat) (payload : list Z) : list Z :=
  firstn n (payload ++ repeat 0 n).

(** ** EC basic commands *)

Section EC.

Local Open Scope io_scope.

Definition ecrb (maj min : Z) : M Z :=
  r1 <- lift (Request_write (Request_new EC_ADDR) [0x10; maj; min]) ;;
  r2 <- lift (Request_write r1 [0x11]) ;;
  p <- Request_send (Request_read r2 1) ;;
  lift (py_index (Buffer_array 1 p) 0).

Definition ecwb (maj min value : Z) : M unit :=
  r1 <- lift (Request_write (Request_new EC_ADDR) [0x10; maj; min]) ;;
  r2 <- lift (Request_write r1 [0x11; value]) ;;
  Request_send r2 ;;;
  ret tt.

(** The polling loop of [ec_settle], at most [n] polls. *)
Fixpoint ec_settle_polls (n : nat) : M unit :=
  match n with
  | O => fun w => (Unfinished, w)
  | S k =>
      v <- ecrb 0xc4 0x30 ;;
      if v =? 0 then ret tt
      else sleep ;;; ec_settle_polls k
  end.

(** [ec_settle]: every poll takes one answer of the bus script, so
    the script bounds the number of polls. *)
Definition ec_settle : M unit :=
  fun w => ec_settle_polls (S (List.length (bus_script w))) w.

Definition eccr (a1 a2 : Z) : M Z :=
  ec_settle ;;;
  ecwb 0xc4 0x31 a2 ;;;
  ecwb 0xc4 0x30 a1 ;;;
  ec_settle ;;;
  res <- ecrb 0xc4 0x32 ;;
  ecwb 0xc4 0x32 0x00 ;;;
  ret res.

Definition eccw (a1 a2 val : Z) : M unit :=
  ec_settle ;;;
  ecwb 0xc4 0x31 a2 ;;;
  ecwb 0xc4 0x32 val ;;;
  ecwb 0xc4 0x30 a1 ;;;
  ec_settle.

(** ** EC control functions *)

Definition get_fan_rpm (fan_id : Z) : M Z :=
  r1 <- lift (Request_write (Request_new FAN_ADDR) [0x22; fan_id + 1]) ;;
  p <- Request_send (Request_read r1 3) ;;
  let arr := Buffer_array 3 p in
  lo <- lift (py_index arr 1) ;;
  hi <- lift (py_index arr 2) ;;
  ret (lo + hi * 256).

Definition FAN_MODE_AUTO : Z := 0.
Definition FAN_MODE_MANUAL : Z := 2.

Definition set_fan_mode (mode : Z) : M unit := eccw 0x01 0x82 mode.

Definition set_fan_profile (profile : Z) : M unit :=
  r1 <- lift (Request_write (Request_new FAN_ADDR) [0x24; profile]) ;;
  Request_send r1 ;;;
  ret tt.

Definition set_fan_speed (fan_id speed : Z) : M unit :=
  eccw 0x01 0x8c fan_id ;;;
  eccw 0x01 0x8a speed.

(** [min(max(round(temp * 10), 0), 2000)] *)
Definition soc_temp_code (temp : pynum) : result Z :=
  rbind (py_mul temp (PInt 10)) (fun t10 =>
  rbind (py_round t10) (fun r =>
  Ok (Z.min (Z.max r 0) 2000))).

Definition send_soc_temp (temp : pynum) : M unit :=
  t <- lift (soc_temp_code temp) ;;
  let lo := Z.land t 0xff in
  let hi := Z.shiftr t 8 in
  r1 <- lift (Request_write (Request_new FAN_ADDR) [0x20; 0x01; 0x02; lo; hi]) ;;
  Request_send r1 ;;;
  ret tt.

Definition set_suspend_mode (mode : Z) : M unit :=
  r1 <- lift (Request_write (Request_new FAN_ADDR) [0x23; mode]) ;;
  Request_send r1 ;;;
  ret tt.

Definition BACKLIGHT_SOLID : Z := 0x01.
Definition BACKLIGHT_BREATHE : Z := 0x02.
Definition BACKLIGHT_RAINBOW : Z := 0x03.
Definition BACKLIGHT_STROBE : Z := 0x04.

Definition set_keyboard_backlight_with (r g b mode period : Z) : M unit :=
  let unk := 0x55 in
  r1 <- lift (Request_write (Request_new FAN_ADDR)
                ([0x51; 0x07; 0x66; 0x00; 0x10; 0x00; 0xb3; mode;
                  r; g; b; unk; period] ++ repeat 0 9)) ;;
  Request_send r1 ;;;
  ret tt.

(** [set_keyboard_backlight(r, g, b)] with the default mode and period. *)
Definition set_keyboard_backlight (r g b : Z) : M unit :=
  set_keyboard_backlight_with r g b BACKLIGHT_SOLID 7.

End EC.

(** ** Sensors *)

Section Sensors.

Local Open Scope io_scope.

Definition THERMAL_ZONES : list string :=
  ["cpu0-0-top-thermal"; "cpu1-0-top-thermal"; "cpu2-0-top-thermal";
   "gpuss-0-thermal"]%string.

Definition pop_sensor (w : world) : world :=
  {| dt_model := dt_model w; i2c_dir := i2c_dir w; dev_dash := dev_dash w;
     dev_slash := dev_slash w; claimed := claimed w;
     sys_thermal := sys_thermal w;
     bus_script := bus_script w;
     sensor_script := tl (sensor_script w);
     bus_log := bus_log w |}.

(** [os.pread(fd, n, 0)] on a sensor file. *)
Definition os_pread (fd : Z) (n : nat) : M (list ascii) :=
  fun w =>
    match sensor_script w with
    | [] => (Unfinished, w)
    | PreadError :: _ => (Raised OSError, pop_sensor w)
    | PreadBytes s :: _ => (Done (firstn n (PyStr.chars s)), pop_sensor w)
    end.

(** Pairs each element with its position, as [enumerate] does. *)
Fixpoint enumerate_from {A : Type} (i : Z) (l : list A) : list (Z * A) :=
  match l with
  | [] => []
  | x :: t => (i, x) :: enumerate_from (i + 1) t
  end.

(** [open_thermal_zones(zones)]: a descriptor for every directory
    [thermal_zone*] whose type is one of [zones]; the descriptor is
    the position of the directory in the listing. *)
Definition open_thermal_zones (zones : list string) : M (list Z) :=
  fun w =>
    let wanted (e : Z * (string * string)) :=
      let '(_, (name, type)) := e in
      PyStr.starts_with (PyStr.chars "thermal_zone") (PyStr.chars name)
      && existsb
           (fun z => String.eqb z
              (string_of_list_ascii
                 (PyStr.strip PyStr.is_space_nl_nul (PyStr.chars type))))
           zones in
    (Done (map fst (filter wanted (enumerate_from 0 (sys_thermal w)))), w).

(** One sample: [int(os.pread(fd, 20, 0)) / 1000] *)
Definition read_celsius (fd : Z) : M pynum :=
  b <- os_pread fd 20 ;;
  z <- lift (PyStr.int_of b) ;;
  lift (py_truediv (PInt z) (PInt 1000)).

(** The sampling lines shared by both loops:
    [temp = 0; for fd in zones: temp = max(temp, ...)] *)
Fixpoint hottest_from (temp : pynum) (zones : list Z) : M pynum :=
  match zones with
  | [] => ret temp
  | fd :: rest =>
      t <- read_celsius fd ;;
      hottest_from (py_max temp t) rest
  end.

Definition hottest (zones : list Z) : M pynum := hottest_from (PInt 0) zones.

(** One turn of the [while True] of [temperature_report_loop]. *)
Definition report_cycle (zones : list Z) : M unit :=
  temp <- hottest zones ;;
  send_soc_temp temp ;;;
  sleep.

Fixpoint report_cycles (n : nat) (zones : list Z) : M unit :=
  match n with
  | O => fun w => (Unfinished, w)
  | S k => report_cycle zones ;;; report_cycles k zones
  end.

(** [temperature_report_loop(zones)]: with at least one zone open
    every turn reads a sensor, so the sensor script bounds the number
    of turns, and the loop itself never returns. *)
Definition temperature_report_loop (zones : list string) : M unit :=
  fds <- open_thermal_zones zones ;;
  match fds with
  | [] => ret tt
  | _ => fun w => report_cycles (S (List.length (sensor_script w))) fds w
  end.

End Sensors.

(** ** Calibration *)

Section Calibration.

Local Open Scope io_scope.

(** [range(start, stop, step)] *)
Definition py_range (start stop step : Z) : result (list Z) :=
  if step =? 0 then Raise ValueError
  else
    let n :=
      if 0 <? step then (stop - start + step - 1) / step
      else (start - stop - step - 1) / (- step) in
    Ok (map (fun k => start + Z.of_nat k * step) (seq 0 (Z.to_nat n))).

(** A dict with integer keys, in insertion order. *)
Definition dict (V : Type) : Type := list (Z * V).

Fixpoint dict_set {V : Type} (k : Z) (v : V) (d : dict V) : dict V :=
  match d with
  | [] => [(k, v)]
  | (k', v') :: t =>
      if k =? k' then (k, v) :: t else (k', v') :: dict_set k v t
  end.

Fixpoint dict_get {V : Type} (k : Z) (d : dict V) : result V :=
  match d with
  | [] => Raise KeyError
  | (k', v) :: t => if k =? k' then Ok v else dict_get k t
  end.

Definition dict_values {V : Type} (d : dict V) : list V := map snd d.

(** [{j: v for j in keys}] *)
Definition dict_const {V : Type} (keys : list Z) (v : V) : dict V :=
  fold_left (fun d j => dict_set j v d) keys [].

(** [{j: f(j) for j in keys}] with an effectful [f]. *)
Fixpoint dict_build {V : Type} (f : Z -> M V) (keys : list Z) (d : dict V)
  : M (dict V) :=
  match keys with
  | [] => ret d
  | j :: t => v <- f j ;; dict_build f t (dict_set j v d)
  end.

(** [min(l)] on a list of ints. *)
Definition py_min_list (l : list Z) : result Z :=
  match l with
  | [] => Raise ValueError
  | x :: t => Ok (fold_left Z.min t x)
  end.

(** The inner loop that reads one RPM per fan and appends
    [[i, rpm]] to [data[j]]. *)
Fixpoint record_rpms (i : Z) (fan_ids : list Z) (data : dict (list (Z * Z)))
  : M (dict (list (Z * Z))) :=
  match fan_ids with
  | [] => ret data
  | j :: t =>
      rpm <- get_fan_rpm j ;;
      row <- lift (dict_get j data) ;;
      record_rpms i t (dict_set j (row ++ [(i, rpm)]) data)
  end.

(** The downward sweep. *)
Fixpoint sweep_down (speeds fan_ids : list Z) (data : dict (list (Z * Z)))
  : M (dict (list (Z * Z))) :=
  match speeds with
  | [] => ret data
  | i :: rest =>
      for_each fan_ids (fun j => set_fan_speed j i) ;;;
      sleep ;;;
      data' <- record_rpms i fan_ids data ;;
      sweep_down rest fan_ids data'
  end.

(** [{j: np.array([x for x in data[j] if x[1]]) for j in fan_ids}]:
    the samples with a speed other than zero. *)
Fixpoint spinning_only (fan_ids : list Z) (data : dict (list (Z * Z)))
    (acc : dict (list (Z * Z))) : result (dict (list (Z * Z))) :=
  match fan_ids with
  | [] => Ok acc
  | j :: t =>
      rbind (dict_get j data) (fun rows =>
      spinning_only t data
        (dict_set j (filter (fun x => negb (snd x =? 0)) rows) acc))
  end.

(** [data[j][:, 0].min()] on the array made of the samples of fan
    [j]: an empty array has one axis only, so the index raises. *)
Definition first_column_min (rows : list (Z * Z)) : result Z :=
  match rows with
  | [] => Raise IndexError
  | _ => py_min_list (map fst rows)
  end.

Fixpoint firsts_of (fan_ids : list Z) (data : dict (list (Z * Z)))
    (acc : dict Z) : result (dict Z) :=
  match fan_ids with
  | [] => Ok acc
  | j :: t =>
      rbind (dict_get j data) (fun rows =>
      rbind (first_column_min rows) (fun m =>
      firsts_of t data (dict_set j m acc)))
  end.

(** The inner loop of the upward search: a fan still at 255 that now
    reports a speed gets the current duty. *)
Fixpoint note_spins (i : Z) (fan_ids : list Z) (first_spins : dict Z)
  : M (dict Z) :=
  match fan_ids with
  | [] => ret first_spins
  | j :: t =>
      cur <- lift (dict_get j first_spins) ;;
      if cur =? 255 then
        rpm <- get_fan_rpm j ;;
        if rpm =? 0 then note_spins i t first_spins
        else note_spins i t (dict_set j i first_spins)
      else note_spins i t first_spins
  end.

(** The upward search, left as soon as no fan is at 255. *)
Fixpoint sweep_up (speeds fan_ids : list Z) (first_spins : dict Z)
  : M (dict Z) :=
  match speeds with
  | [] => ret first_spins
  | i :: rest =>
      for_each fan_ids (fun j => set_fan_speed j i) ;;;
      sleep ;;;
      fs <- note_spins i fan_ids first_spins ;;
      if existsb (Z.eqb 255) (dict_values fs) then sweep_up rest fan_ids fs
      else ret fs
  end.

(** [measure_fan_model(fan_ids, step)].  The fit of [np.polyfit] is
    only printed, and it is reached with at least one sample per fan,
    where it does not raise; it is left out. *)
Definition measure_fan_model (fan_ids : list Z) (step : Z) : M unit :=
  set_fan_mode FAN_MODE_MANUAL ;;;
  for_each fan_ids (fun j => set_fan_speed j 255) ;;;
  sleep ;;;
  max_speeds <- dict_build get_fan_rpm fan_ids [] ;;
  let data0 := dict_const fan_ids (@nil (Z * Z)) in
  down <- lift (py_range 254 0 (-1 * step)) ;;
  data1 <- sweep_down down fan_ids data0 ;;
  data <- lift (spinning_only fan_ids data1 []) ;;
  firsts <- lift (firsts_of fan_ids data []) ;;
  let first_spins := dict_const fan_ids 255 in
  lo <- lift (py_min_list (dict_values firsts)) ;;
  up <- lift (py_range lo 255 step) ;;
  _ <- sweep_up up fan_ids first_spins ;;
  set_fan_mode FAN_MODE_AUTO.

End Calibration.

(** ** Start-up and the command line *)

Section CommandLine.

Local Open Scope io_scope.

(** The module globals [info] and [i2c_fd]. *)
Record globals : Type := {
  info : option Model;
  i2c_fd : option Z
}.

Fixpoint lookup_model (name : string) (table : list (string * Model))
  : option Model :=
  match table with
  | [] => None
  | (k, m) :: t => if String.eqb k name then Some m else lookup_model name t
  end.

(** [get_model_info()]: [None] for a device that is not in the table. *)
Definition get_model_info : M (option Model) :=
  fun w =>
    let model :=
      string_of_list_ascii
        (PyStr.strip PyStr.is_space_nl_nul (PyStr.chars (dt_model w))) in
    (Done (lookup_model model MODELS), w).

(** [open_i2c(addr)]: the descriptor is the bus number here. *)
Definition open_i2c (addr : string) : M Z :=
  fun w =>
    let devs :=
      filter (fun x => PyStr.starts_with (PyStr.chars "i2c-") (PyStr.chars x))
             (i2c_dir w) in
    match devs with
    | [d] =>
        match rbind (py_index (PyStr.split_on "-"%char (PyStr.chars d)) 1)
                    PyStr.int_of with
        | Raise e => (Raised e, w)
        | Ok bus =>
            if existsb (Z.eqb bus) (dev_dash w) then (Done bus, w)
            else if existsb (Z.eqb bus) (dev_slash w) then (Done bus, w)
            else (Raised (RuntimeError "Try: modprobe i2c-dev"), w)
        end
    | _ => (Raised (SystemExit 1), w)
    end.

(** [fcntl.ioctl(i2c_fd, I2C_SLAVE, a)]: fails when a kernel driver
    holds the address. *)
Definition ioctl_slave (a : Z) : M unit :=
  fun w =>
    if existsb (Z.eqb a) (claimed w) then (Raised OSError, w)
    else (Done tt, w).

Definition init : M globals :=
  i <- get_model_info ;;
  fd <- open_i2c BUSADDR ;;
  ioctl_slave FAN_ADDR ;;;
  ioctl_slave EC_ADDR ;;;
  ret {| info := i; i2c_fd := Some fd |}.

(** [info.blades(fan_id)] *)
Definition blades (m : Model) (fan_id : Z) : result Z :=
  match fan_blades m with
  | None => Raise (RuntimeError "No fan blade count defined")
  | Some l => py_index l fan_id
  end.

(** [hz / info.blades(fan_id) * 60] *)
Definition rpm_for_freq (m : Model) (fan_id : Z) (hz : pynum) : result pynum :=
  rbind (blades m fan_id) (fun n =>
  rbind (py_truediv hz (PInt n)) (fun q =>
  py_mul q (PInt 60))).

(** [rpm * info.blades(fan_id) / 60] *)
Definition freq_for_rpm (m : Model) (fan_id : Z) (rpm : pynum) : result pynum :=
  rbind (blades m fan_id) (fun n =>
  rbind (py_mul rpm (PInt n)) (fun p =>
  py_truediv p (PInt 60))).

Definition print_fan_speeds (m : Model) : M unit :=
  for_each (enumerate_from 0 (fans m))
    (fun '(i, _) =>
       rpm <- get_fan_rpm i ;;
       match fan_blades m with
       | Some _ =>
           f <- lift (freq_for_rpm m i (PInt rpm)) ;;
           _ <- lift (py_round f) ;;
           ret tt
       | None =>
           _ <- get_fan_rpm i ;;
           ret tt
       end).

(** [usage()] only prints. *)
Definition usage : M unit := ret tt.

(** The fan ids [range(len(info.fans))]. *)
Definition fan_ids_of (m : Model) : list Z := map fst (enumerate_from 0 (fans m)).

(** The three colour components of the [kb] command, or [None] when
    the colour is neither [rgb] nor [rrggbb]. *)
Definition parse_colour (arg : string) : option (result (list Z)) :=
  let colour := PyStr.strip PyStr.is_hash (PyStr.chars arg) in
  let scaled (fac : Z) (parts : list (list ascii)) : result (list Z) :=
    fold_right
      (fun x acc =>
         rbind (PyStr.int16_of x) (fun v =>
         rbind acc (fun l => Ok (v * fac :: l))))
      (Ok []) parts in
  if PyStr.hex_fullmatch 3 colour then
    Some (scaled 17 (map (fun c => [c]) colour))
  else if PyStr.hex_fullmatch 6 colour then
    Some (scaled 1 [firstn 2 colour; firstn 2 (skipn 2 colour); skipn 4 colour])
  else None.

(** [main(args)] *)
Definition main (g : globals) (args : list string) : M Z :=
  match args with
  | [] => usage ;;; ret 0
  | cmd :: _ =>
      match info g, i2c_fd g with
      | Some m, Some _ =>
          let arg1 := py_index args 1 in
          let int_arg1 := rbind arg1 (fun a => PyStr.int_of (PyStr.chars a)) in
          if String.eqb cmd "get-speed" then
            print_fan_speeds m ;;; ret 1
          else if String.eqb cmd "set-speed" then
            speed <- lift int_arg1 ;;
            match rpm_models m with
            | Some _ =>
                for_each (fan_ids_of m)
                  (fun i =>
                     d <- lift (speed_for_rpm m i (PInt speed)) ;;
                     set_fan_speed i (fst d)) ;;;
                ret 1
            | None =>
                for_each (fan_ids_of m) (fun i => set_fan_speed i speed) ;;;
                ret 1
            end
          else if String.eqb cmd "mode" then
            a <- lift arg1 ;;
            if String.eqb a "auto" then set_fan_mode FAN_MODE_AUTO ;;; ret 1
            else if String.eqb a "manual" then
              set_fan_mode FAN_MODE_MANUAL ;;; ret 1
            else ret 1
          else if String.eqb cmd "profile" then
            profile <- lift int_arg1 ;;
            _ <- (if profile <? Z.of_nat (List.length (profiles m))
                  then _ <- lift (py_index (profiles m) profile) ;; ret tt
                  else ret tt) ;;
            set_fan_profile profile ;;;
            ret 1
          else if String.eqb cmd "temp-loop" then
            temperature_report_loop THERMAL_ZONES ;;; ret 1
          else if String.eqb cmd "suspend" then
            mode <- lift int_arg1 ;;
            set_suspend_mode mode ;;;
            ret 1
          else if String.eqb cmd "measure-rpm" then
            measure_fan_model (fan_ids_of m) 1 ;;; ret 1
          else if String.eqb cmd "kb" then
            a <- lift arg1 ;;
            match parse_colour a with
            | None => ret 1
            | Some colour =>
                c <- lift colour ;;
                match c with
                | [r; gr; b] => set_keyboard_backlight r gr b ;;; ret 1
                | _ => raise ValueError
                end
            end
          else usage ;;; ret 1
      | _, _ => raise (SystemExit 1)
      end
  end.

(** The block under [if __name__ == "__main__"]:
    [init(); sys.exit(main(sys.argv[1:]))] *)
Definition tool_script (args : list string) : M unit :=
  g <- init ;;
  status <- main g args ;;
  raise (SystemExit status).

(** The exit status of the process for the way the script ended. *)
Definition exit_status {A : Type} (o : outcome A) : option Z :=
  match o with
  | Raised (SystemExit code) => Some code
  | Raised _ => Some 1
  | Done _ => Some 0
  | Unfinished => None
  end.

End CommandLine.

(** ** [effects.py] *)

Module Effects.

Local Open Scope io_scope.

Definition min_temp : Z := 40.
Definition blue_temp : Z := 55.
Definition temp_range : Z := 30.

(** The float literals [1.0] and [0.5]. *)
Definition one : float := Poly.float_of_decimal false 10 (-1).
Definition half : float := Poly.float_of_decimal false 5 (-1).

(** [min(max((temp - base) / temp_range, 0), 1)] *)
Definition ramp (temp : pynum) (base : Z) : result pynum :=
  rbind (py_sub temp (PInt base)) (fun d =>
  rbind (py_truediv d (PInt temp_range)) (fun q =>
  Ok (py_min (py_max q (PInt 0)) (PInt 1)))).

(** [round(x * 255)] *)
Definition to_byte (x : pynum) : result Z :=
  rbind (py_mul x (PInt 255)) py_round.

(** The colour for a temperature: the lines from [frac] to [new]. *)
Definition fire_colour (temp : pynum) : result (list Z) :=
  rbind (ramp temp min_temp) (fun frac =>
  rbind (ramp temp blue_temp) (fun frac2 =>
  rbind (py_mul frac (PFloat one)) (fun r =>
  rbind (py_mul frac frac) (fun ff =>
  rbind (py_mul ff (PFloat half)) (fun g =>
  let b := frac2 in
  rbind (to_byte r) (fun r255 =>
  rbind (to_byte g) (fun g255 =>
  rbind (to_byte b) (fun b255 =>
  Ok [r255; g255; b255])))))))).

Definition colour_eqb (x y : list Z) : bool :=
  if list_eq_dec Z.eq_dec x y then true else false.

(** One turn of the [while True] of [kb_backlight_fire]: the new
    value of [cur]. *)
Definition fire_cycle (zones : list Z) (cur : list Z) : M (list Z) :=
  temp <- hottest zones ;;
  new <- lift (fire_colour temp) ;;
  cur' <- (if colour_eqb new cur then ret cur
           else
             match new with
             | [r; g; b] => set_keyboard_backlight r g b ;;; ret new
             | _ => raise ValueError
             end) ;;
  sleep ;;;
  ret cur'.

Fixpoint fire_cycles (n : nat) (zones : list Z) (cur : list Z) : M unit :=
  match n with
  | O => fun w => (Unfinished, w)
  | S k => cur' <- fire_cycle zones cur ;; fire_cycles k zones cur'
  end.

(** [kb_backlight_fire(zones)]; as in [temperature_report_loop] the
    sensor script bounds the number of turns. *)
Definition kb_backlight_fire (zones : list string) : M unit :=
  fds <- open_thermal_zones zones ;;
  match fds with
  | [] => ret tt
  | _ =>
      fun w =>
        fire_cycles (S (List.length (sensor_script w))) fds [256; 256; 256] w
  end.

Definition usage : M unit := ret tt.

(** The block under [if __name__ == "__main__"]; [exit()] raises
    [SystemExit] with status 0. *)
Definition effects_script (args : list string) : M unit :=
  _ <- init ;;
  match args with
  | [] => usage ;;; raise (SystemExit 0)
  | cmd :: _ =>
      if String.eqb cmd "fire" then kb_backlight_fire THERMAL_ZONES
      else usage
  end.

End Effects.

(** ** The real value of a number *)

(** The real [m * 2^e]. *)
Definition F2R (m e : Z) : R := (IZR m * powerRZ 2 e)%R.

(** The value of a finite number; 0 for the others. *)
Definition xreal (x : xval) : R :=
  match x with
  | XFin m e => F2R m e
  | _ => 0%R
  end.

Definition fval (x : float) : R := xreal (xval_of_float x).

(** [x] is a number, possibly infinite, and [c <= x]. *)
Definition at_least (c : R) (x : xval) : Prop :=
  match x with
  | XNaN => False
  | XInf s => s = false
  | XFin m e => (c <= F2R m e)%R
  end.

(** [x] is finite and [x <= c]. *)
Definition at_most (c : R) (x : xval) : Prop :=
  match x with
  | XFin m e => (F2R m e <= c)%R
  | _ => False
  end.

(** A real that binary64 represents as [k * 2^j] with [0 < k < 2^53]
    and [j] at least the least exponent. *)
Definition representable (c : R) : Prop :=
  exists k j : Z, 0 < k < 2 ^ 53 /\ -1074 <= j /\ c = F2R k j.

(** Zero, or a positive finite float. *)
Definition nonneg_finite (x : float) : Prop :=
  match x with
  | S754_zero _ | S754_finite false _ _ => True
  | _ => False
  end.

(** Zero of either sign, a negative float or minus infinity. *)
Definition nonpos (x : float) : Prop :=
  match x with
  | S754_zero _ | S754_finite true _ _ | S754_infinity true => True
  | _ => False
  end.

(** Zero, a positive float or plus infinity. *)
Definition nonneg (x : float) : Prop :=
  match x with
  | S754_zero _ | S754_finite false _ _ | S754_infinity false => True
  | _ => False
  end.

(** ** Reading the trace *)

(** [n] turns of the [while True] of [temperature_report_loop], all of
    them completed. *)
Fixpoint completed_cycles (n : nat) (zones : list Z) : M unit :=
  match n with
  | O => ret tt
  | S k => bind (report_cycle zones) (fun _ => completed_cycles k zones)
  end.






(** The transfer of [send_soc_temp] for the low and high byte. *)
Definition soc_temp_transfer (lo hi : Z) : list I2c_msg :=
  [{| addr := FAN_ADDR; flags := 0; len := 5;
      buf := [0x20; 0x01; 0x02; lo; hi] |}].

(** The transfer of [set_keyboard_backlight(r, g, b)]. *)
Definition backlight_transfer (r g b : Z) : list I2c_msg :=
  [{| addr := FAN_ADDR; flags := 0; len := 22;
      buf := [0x51; 0x07; 0x66; 0x00; 0x10; 0x00; 0xb3; 0x01;
              r; g; b; 0x55; 7; 0; 0; 0; 0; 0; 0; 0; 0; 0] |}].

(** A world with nothing but the given scripts and an empty log. *)
Definition scripted (thermal : list (string * string))
    (bus : list bus_reply) (sensors : list pread_reply) : world :=
  {| dt_model := "ASUS Vivobook S 15";
     i2c_dir := ["i2c-2"]%string;
     dev_dash := [2];
     dev_slash := [];
     claimed := [];
     sys_thermal := thermal;
     bus_script := bus;
     sensor_script := sensors;
     bus_log := [] |}.

(** What the sampling lines can leave in [temp]: the initial int 0, or
    a finite float. *)
Definition sampled (t : pynum) : Prop :=
  t = PInt 0 \/ exists x, t = PFloat x /\ is_finite x = true.




(** A value of [frac]: the int 0, the int 1, or a float from 0 to 1. *)
Definition unit_value (frac : pynum) : Prop :=
  frac = PInt 0 \/ frac = PInt 1 \/
  exists y, frac = PFloat y /\ nonneg_finite y /\ (fval y <= 1)%R.

(** A value of [frac] equal to 0. *)
Definition zero_value (frac : pynum) : Prop :=
  frac = PInt 0 \/ exists s, frac = PFloat (S754_zero s).

(** A value of [frac] equal to 1. *)
Definition one_value (frac : pynum) : Prop :=
  frac = PInt 1 \/
  exists y, frac = PFloat y /\ nonneg_finite y /\ fval y = 1%R.

(** The sensor answers are the same in both worlds. *)
Definition same_sensors (w w' : world) : Prop :=
  sensor_script w' = sensor_script w.

(** ** The fire loop, turn by turn *)

(** The value of one sample whose file holds [s]:
    [int(os.pread(fd, 20, 0)) / 1000]. *)
Definition celsius_of (s : string) : result pynum :=
  rbind (PyStr.int_of (firstn 20 (PyStr.chars s))) (fun z =>
  py_truediv (PInt z) (PInt 1000)).

(** The sampling lines on the files of one turn, from [temp]. *)
Fixpoint hottest_of (temp : pynum) (files : list string) : result pynum :=
  match files with
  | [] => Ok temp
  | s :: rest => rbind (celsius_of s) (fun t => hottest_of (py_max temp t) rest)
  end.

(** The triple computed in a turn whose sensor files hold [files]. *)
Definition colour_of (files : list string) : result (list Z) :=
  rbind (hottest_of (PInt 0) files) Effects.fire_colour.

Fixpoint colours_of (turns : list (list string)) : result (list (list Z)) :=
  match turns with
  | [] => Ok []
  | files :: rest =>
      rbind (colour_of files) (fun c =>
      rbind (colours_of rest) (fun cs => Ok (c :: cs)))
  end.

(** The transfer that writes the triple [c] to the backlight. *)
Definition backlight_write (c : list Z) : list I2c_msg :=
  [{| addr := FAN_ADDR; flags := 0; len := 22;
      buf := [0x51; 0x07; 0x66; 0x00; 0x10; 0x00; 0xb3; 0x01] ++ c
             ++ [0x55; 7; 0; 0; 0; 0; 0; 0; 0; 0; 0] |}].

(** The writes the description asks for, given the triples computed
    turn by turn and the last triple written, if any: one write for
    every triple that differs from the last written one. *)
Fixpoint writes_of (last : option (list Z)) (colours : list (list Z))
    : list (list I2c_msg) :=
  match colours with
  | [] => []
  | new :: rest =>
      match last with
      | Some c =>
          if list_eq_dec Z.eq_dec new c then writes_of last rest
          else backlight_write new :: writes_of (Some new) rest
      | None => backlight_write new :: writes_of (Some new) rest
      end
  end.

(** * Properties *)

(** ** Powers of two and dyadic values *)

Lemma pow2_pos (e : Z) : (0 < powerRZ 2 e)%R.
Proof. apply powerRZ_lt; lra. Qed.

Lemma pow2_add (a b : Z) : powerRZ 2 (a + b) = (powerRZ 2 a * powerRZ 2 b)%R.
Proof. apply powerRZ_add; lra. Qed.

Lemma IZR_pow2 (n : Z) : 0 <= n -> IZR (2 ^ n) = powerRZ 2 n.
Proof.
  intros Hn. rewrite <- (Z2Nat.id n Hn) at 1.
  rewrite <- pow_IZR, pow_powerRZ, Z2Nat.id by assumption. reflexivity.
Qed.

Lemma F2R_scale (m e n : Z) : 0 <= n -> F2R (m * 2 ^ n) e = F2R m (e + n).
Proof.
  intros Hn. unfold F2R.
  rewrite mult_IZR, IZR_pow2, pow2_add by assumption. ring.
Qed.

Lemma F2R_le (m1 m2 e : Z) : (F2R m1 e <= F2R m2 e)%R <-> m1 <= m2.
Proof.
  unfold F2R. pose proof (pow2_pos e) as Hp. split; intros H.
  - apply le_IZR. apply Rmult_le_reg_r with (powerRZ 2 e); assumption.
  - apply Rmult_le_compat_r; [lra | now apply IZR_le].
Qed.

Lemma F2R_lt (m1 m2 e : Z) : (F2R m1 e < F2R m2 e)%R <-> m1 < m2.
Proof.
  unfold F2R. pose proof (pow2_pos e) as Hp. split; intros H.
  - apply lt_IZR. apply Rmult_lt_reg_r with (powerRZ 2 e); assumption.
  - apply Rmult_lt_compat_r; [lra | now apply IZR_lt].
Qed.

Lemma F2R_0 (e : Z) : F2R 0 e = 0%R.
Proof. unfold F2R. ring. Qed.

Lemma F2R_int (z : Z) : F2R z 0 = IZR z.
Proof. unfold F2R. simpl. ring. Qed.

Lemma F2R_opp (m e : Z) : F2R (- m) e = (- F2R m e)%R.
Proof. unfold F2R. rewrite opp_IZR. ring. Qed.

Lemma F2R_pos (m e : Z) : 0 < m -> (0 < F2R m e)%R.
Proof.
  intros H. unfold F2R. apply Rmult_lt_0_compat; [now apply IZR_lt | apply pow2_pos].
Qed.

(** Both values on the grid of the smaller exponent. *)
Lemma F2R_align (m e e0 : Z) : e0 <= e -> F2R m e = F2R (m * 2 ^ (e - e0)) e0.
Proof.
  intros H. rewrite F2R_scale by lia. f_equal. lia.
Qed.

Lemma cmp_dyadic_spec (m1 e1 m2 e2 : Z) :
  match cmp_dyadic m1 e1 m2 e2 with
  | Lt => (F2R m1 e1 < F2R m2 e2)%R
  | Eq => F2R m1 e1 = F2R m2 e2
  | Gt => (F2R m2 e2 < F2R m1 e1)%R
  end.
Proof.
  unfold cmp_dyadic.
  set (e := Z.min e1 e2).
  rewrite (F2R_align m1 e1 e), (F2R_align m2 e2 e) by (subst e; lia).
  destruct (Z.compare_spec (m1 * 2 ^ (e1 - e)) (m2 * 2 ^ (e2 - e))) as [H|H|H].
  - now rewrite H.
  - now apply F2R_lt.
  - now apply F2R_lt.
Qed.

(** ** The comparisons of Python, read on the reals *)

Lemma xcompare_lt (x y : xval) :
  xcompare x y = Some Lt ->
  match x, y with
  | XFin m1 e1, XFin m2 e2 => (F2R m1 e1 < F2R m2 e2)%R
  | XInf s, XFin _ _ => s = true
  | XFin _ _, XInf s => s = false
  | XInf s1, XInf s2 => s1 = true /\ s2 = false
  | _, _ => False
  end.
Proof.
  destruct x as [|s1|m1 e1], y as [|s2|m2 e2]; simpl; try discriminate.
  - destruct s1, s2; intros H; try discriminate; auto.
  - destruct s1; intros H; try discriminate; auto.
  - destruct s2; intros H; try discriminate; auto.
  - intros H. injection H as H. pose proof (cmp_dyadic_spec m1 e1 m2 e2) as S.
    now rewrite H in S.
Qed.

Lemma xcompare_fin (m1 e1 m2 e2 : Z) :
  xcompare (XFin m1 e1) (XFin m2 e2) =
  Some (if Rlt_dec (F2R m1 e1) (F2R m2 e2) then Lt
        else if Rlt_dec (F2R m2 e2) (F2R m1 e1) then Gt else Eq).
Proof.
  simpl. f_equal. pose proof (cmp_dyadic_spec m1 e1 m2 e2) as S.
  destruct (cmp_dyadic m1 e1 m2 e2);
    repeat (destruct (Rlt_dec _ _)); try reflexivity; exfalso; lra.
Qed.

(** ** Digits and shifts of the rounding of [SpecFloat] *)

Lemma digits2_bounds (m : positive) :
  2 ^ (Zpos (digits2_pos m) - 1) <= Zpos m < 2 ^ Zpos (digits2_pos m).
Proof.
  induction m as [p IH | p IH |]; simpl digits2_pos.
  - rewrite Pos2Z.inj_succ.
    replace (Z.succ (Zpos (digits2_pos p)) - 1) with (Z.succ (Zpos (digits2_pos p) - 1)) by lia.
    rewrite !Z.pow_succ_r by lia. lia.
  - rewrite Pos2Z.inj_succ.
    replace (Z.succ (Zpos (digits2_pos p)) - 1) with (Z.succ (Zpos (digits2_pos p) - 1)) by lia.
    rewrite !Z.pow_succ_r by lia. lia.
  - simpl. lia.
Qed.

Lemma Zdigits2_bounds (m : Z) :
  0 < m -> 2 ^ (Zdigits2 m - 1) <= m < 2 ^ Zdigits2 m.
Proof.
  destruct m as [|p|p]; try lia. intros _. apply digits2_bounds.
Qed.

Lemma Zdigits2_pos (m : Z) : 0 < m -> 0 < Zdigits2 m.
Proof. destruct m; simpl; lia. Qed.

Lemma fexp_eq (x : Z) : fexp prec emax x = Z.max (x - 53) (-1074).
Proof. reflexivity. Qed.

Lemma mod_mul_split (a b m : Z) :
  0 < a -> 0 < b -> m mod (a * b) = 0 -> m mod a = 0 /\ (m / a) mod b = 0.
Proof.
  intros Ha Hb H.
  apply Z.mod_divide in H; [|lia]. destruct H as [q Hq]. subst m.
  replace (q * (a * b)) with (q * b * a) by ring.
  rewrite Z.mod_mul, Z.div_mul by lia. split; [reflexivity|].
  apply Z.mod_mul. lia.
Qed.

Lemma shr_1_spec (rs : shr_record) :
  0 <= shr_m rs ->
  0 <= shr_m (shr_1 rs) /\
  shr_m (shr_1 rs) = shr_m rs / 2 /\
  (shr_r rs = false -> shr_s rs = false -> shr_m rs mod 2 = 0 ->
   shr_r (shr_1 rs) = false /\ shr_s (shr_1 rs) = false).
Proof.
  destruct rs as [m r s]. cbn [shr_m shr_r shr_s]. intros Hm.
  destruct m as [|[p|p|]|p]; cbn [shr_1 shr_m shr_r shr_s]; try lia.
  - split; [lia|]. split; [reflexivity|]. intros -> -> _. auto.
  - split; [lia|]. split.
    + apply Z.div_unique with 1; lia.
    + intros _ _ E. exfalso.
      rewrite <- (Z.mod_unique (Z.pos p~1) 2 (Z.pos p) 1) in E; lia.
  - split; [lia|]. split.
    + apply Z.div_unique with 0; lia.
    + intros -> -> _. auto.
  - split; [lia|]. split; [reflexivity|]. intros _ _ E. discriminate.
Qed.

Lemma iter_shr_1_spec (p : positive) :
  forall rs : shr_record,
  0 <= shr_m rs ->
  0 <= shr_m (iter_pos shr_1 p rs) /\
  shr_m (iter_pos shr_1 p rs) = shr_m rs / 2 ^ Zpos p /\
  (shr_r rs = false -> shr_s rs = false -> shr_m rs mod 2 ^ Zpos p = 0 ->
   shr_r (iter_pos shr_1 p rs) = false /\ shr_s (iter_pos shr_1 p rs) = false).
Proof.
  induction p as [p IH | p IH |]; intros rs Hm; simpl iter_pos.
  - destruct (shr_1_spec rs Hm) as (H0 & H1 & H2).
    destruct (IH _ H0) as (H3 & H4 & H5).
    destruct (IH _ H3) as (H6 & H7 & H8).
    assert (Hp : 0 < 2 ^ Zpos p) by (apply Z.pow_pos_nonneg; lia).
    assert (E : 2 ^ Zpos p~1 = 2 * (2 ^ Zpos p * 2 ^ Zpos p)).
    { replace (Z.pos p~1) with (1 + Z.pos p + Z.pos p) by lia.
      rewrite !Z.pow_add_r by lia. change (2 ^ 1) with 2. ring. }
    split; [assumption|]. split.
    + rewrite H7, H4, H1, E, !Z.div_div by lia. reflexivity.
    + intros Hr Hs Hmod. rewrite E in Hmod.
      apply mod_mul_split in Hmod; try lia. destruct Hmod as [Ma Mb].
      apply mod_mul_split in Mb; try lia. destruct Mb as [Mb Mc].
      destruct (H2 Hr Hs Ma) as [R1 S1].
      rewrite <- H1 in Mb, Mc.
      destruct (H5 R1 S1 Mb) as [R2 S2].
      rewrite <- H4 in Mc. exact (H8 R2 S2 Mc).
  - destruct (IH _ Hm) as (H3 & H4 & H5).
    destruct (IH _ H3) as (H6 & H7 & H8).
    assert (Hp : 0 < 2 ^ Zpos p) by (apply Z.pow_pos_nonneg; lia).
    assert (E : 2 ^ Zpos p~0 = 2 ^ Zpos p * 2 ^ Zpos p).
    { replace (Z.pos p~0) with (Z.pos p + Z.pos p) by lia.
      rewrite Z.pow_add_r by lia. reflexivity. }
    split; [assumption|]. split.
    + rewrite H7, H4, E, Z.div_div by lia. reflexivity.
    + intros Hr Hs Hmod. rewrite E in Hmod.
      apply mod_mul_split in Hmod; try lia. destruct Hmod as [Ma Mb].
      destruct (H5 Hr Hs Ma) as [R2 S2].
      rewrite <- H4 in Mb. exact (H8 R2 S2 Mb).
  - change (2 ^ 1) with 2. apply shr_1_spec. assumption.
Qed.

(** [shr] divides the mantissa by [2^n], and leaves no sticky bit
    behind when the division is exact. *)
Lemma shr_spec (rs : shr_record) (e n : Z) :
  0 <= shr_m rs ->
  let k := Z.max n 0 in
  snd (shr rs e n) = e + k /\
  0 <= shr_m (fst (shr rs e n)) /\
  shr_m (fst (shr rs e n)) = shr_m rs / 2 ^ k /\
  (shr_r rs = false -> shr_s rs = false -> shr_m rs mod 2 ^ k = 0 ->
   shr_r (fst (shr rs e n)) = false /\ shr_s (fst (shr rs e n)) = false).
Proof.
  intros Hm k. destruct n as [|p|p]; simpl.
  - subst k. simpl. rewrite Z.div_1_r. repeat split; auto; lia.
  - subst k. simpl Z.max.
    destruct (iter_shr_1_spec p rs Hm) as (A & B & C). repeat split; auto.
    + apply C; assumption.
    + apply C; assumption.
  - subst k. simpl. rewrite Z.div_1_r. repeat split; auto; lia.
Qed.

Lemma round_nearest_even_cases (rs : shr_record) :
  let m' := round_nearest_even (shr_m rs) (loc_of_shr_record rs) in
  (m' = shr_m rs \/ m' = shr_m rs + 1) /\
  (shr_r rs = false -> shr_s rs = false -> m' = shr_m rs).
Proof.
  destruct rs as [m [|] [|]]; cbv zeta; cbn;
    try destruct (Z.even m); (split; [auto | intros; congruence]).
Qed.

(** ** Rounding stays on the right side of a representable number *)

Lemma F2R_floor_le (m e n : Z) :
  0 <= n -> (F2R (m / 2 ^ n) (e + n) <= F2R m e)%R.
Proof.
  intros Hn. rewrite <- F2R_scale by assumption. apply F2R_le.
  assert (0 < 2 ^ n) by (apply Z.pow_pos_nonneg; lia).
  rewrite Z.mul_comm. apply Z.mul_div_le. assumption.
Qed.

(** A mantissa of 53 bits at a higher exponent is above any
    representable number of exponent [j]. *)
Lemma big_mantissa_gt (k j m e : Z) :
  0 < k < 2 ^ 53 -> j < e -> 2 ^ 52 <= m -> (F2R k j < F2R m e)%R.
Proof.
  intros Hk Hj Hm. rewrite (F2R_align m e j) by lia. apply F2R_lt.
  assert (2 ^ 1 <= 2 ^ (e - j)) by (apply Z.pow_le_mono_r; lia).
  change (2 ^ 1) with 2 in *. change (2 ^ 53) with (2 ^ 52 * 2) in Hk. nia.
Qed.

(** When the shift of [shr_fexp] is positive and leads above the least
    exponent, 53 bits remain. *)
Lemma shifted_mantissa_big (m e j n : Z) :
  0 < m -> -1074 <= j ->
  n = fexp prec emax (Zdigits2 m + e) - e ->
  0 < n -> j < e + n -> 2 ^ 52 <= m / 2 ^ n.
Proof.
  intros Hm Hj En Hn Hlt. rewrite fexp_eq in En.
  assert (E : n = Zdigits2 m - 53) by lia.
  rewrite E.
  apply Z.div_le_lower_bound; [apply Z.pow_pos_nonneg; lia|].
  rewrite <- Z.pow_add_r by lia.
  replace (Zdigits2 m - 53 + 52) with (Zdigits2 m - 1) by lia.
  apply Zdigits2_bounds. assumption.
Qed.

Lemma shift_ge (m e : Z) (c : R) :
  0 <= m -> representable c -> (c <= F2R m e)%R ->
  let n := Z.max (fexp prec emax (Zdigits2 m + e) - e) 0 in
  (c <= F2R (m / 2 ^ n) (e + n))%R.
Proof.
  intros Hm (k & j & Hk & Hj & ->) Hc n.
  assert (En : n = Z.max (fexp prec emax (Zdigits2 m + e) - e) 0) by reflexivity.
  clearbody n.
  assert (Hpos : 0 < m).
  { destruct (Z.eq_dec m 0) as [->|]; [|lia].
    rewrite F2R_0 in Hc. pose proof (F2R_pos k j ltac:(lia)). lra. }
  destruct (Z.le_gt_cases (fexp prec emax (Zdigits2 m + e) - e) 0) as [Hn|Hn].
  - replace n with 0 by lia. simpl. rewrite Z.div_1_r, Z.add_0_r. assumption.
  - assert (En' : n = fexp prec emax (Zdigits2 m + e) - e) by lia.
    destruct (Z.le_gt_cases (e + n) j) as [Hj'|Hj'].
    + rewrite (F2R_align k j (e + n)) in * by lia.
      apply F2R_le. apply Z.div_le_lower_bound; [apply Z.pow_pos_nonneg; lia|].
      rewrite <- F2R_scale in Hc by lia. apply F2R_le in Hc. lia.
    + apply Rlt_le. apply big_mantissa_gt; try assumption.
      apply (shifted_mantissa_big m e j n); try assumption. lia.
Qed.

Lemma shift_up_le (m e : Z) (c : R) :
  0 <= m -> representable c -> (F2R m e <= c)%R ->
  let n := Z.max (fexp prec emax (Zdigits2 m + e) - e) 0 in
  m mod 2 ^ n <> 0 ->
  (F2R (m / 2 ^ n + 1) (e + n) <= c)%R.
Proof.
  intros Hm (k & j & Hk & Hj & ->) Hc n.
  assert (En : n = Z.max (fexp prec emax (Zdigits2 m + e) - e) 0) by reflexivity.
  clearbody n. intros Hmod.
  assert (Hpos : 0 < m).
  { destruct (Z.eq_dec m 0) as [->|]; [|lia]. rewrite Z.mod_0_l in Hmod; [lia|].
    apply Z.pow_nonzero; lia. }
  destruct (Z.le_gt_cases (fexp prec emax (Zdigits2 m + e) - e) 0) as [Hn|Hn].
  - replace n with 0 in Hmod by lia. simpl in Hmod. rewrite Z.mod_1_r in Hmod. lia.
  - assert (En' : n = fexp prec emax (Zdigits2 m + e) - e) by lia.
    assert (Hp : 0 < 2 ^ n) by (apply Z.pow_pos_nonneg; lia).
    destruct (Z.le_gt_cases (e + n) j) as [Hj'|Hj'].
    + rewrite (F2R_align k j (e + n)) in * by lia.
      apply F2R_le.
      rewrite <- F2R_scale in Hc by lia. apply F2R_le in Hc.
      assert (m / 2 ^ n < k * 2 ^ (j - (e + n))); [|lia].
      apply Z.div_lt_upper_bound; [assumption|].
      assert (m <> k * 2 ^ (j - (e + n)) * 2 ^ n); [|lia].
      intros ->. rewrite Z.mod_mul in Hmod; lia.
    + exfalso.
      assert (B52 : 2 ^ 52 <= m / 2 ^ n)
        by (apply (shifted_mantissa_big m e j n); try assumption; lia).
      pose proof (big_mantissa_gt k j (m / 2 ^ n) (e + n) Hk Hj' B52) as B.
      pose proof (F2R_floor_le m e n ltac:(lia)). lra.
Qed.

(** What [binary_round_aux] returns, through a mantissa and an
    exponent that stay on the right side of every representable
    number. *)
Lemma binary_round_aux_spec (sx : bool) (mx ex : Z) (lx : location) :
  0 <= mx ->
  exists m3 e3 : Z,
    0 <= m3 /\
    binary_round_aux prec emax sx mx ex lx =
      match m3 with
      | Z0 => S754_zero sx
      | Zpos p => if e3 <=? 971 then S754_finite sx p e3 else S754_infinity sx
      | Zneg _ => S754_nan
      end /\
    (forall c, representable c -> (c <= F2R mx ex)%R -> (c <= F2R m3 e3)%R) /\
    (lx = loc_Exact ->
     forall c, representable c -> (F2R mx ex <= c)%R -> (F2R m3 e3 <= c)%R).
Proof.
  intros Hmx. unfold binary_round_aux, shr_fexp.
  set (n1 := fexp prec emax (Zdigits2 mx + ex) - ex).
  assert (H0 : 0 <= shr_m (shr_record_of_loc mx lx))
    by (destruct lx as [|[| |]]; assumption).
  assert (M0 : shr_m (shr_record_of_loc mx lx) = mx)
    by (destruct lx as [|[| |]]; reflexivity).
  destruct (shr_spec (shr_record_of_loc mx lx) ex n1 H0) as (E1 & P1 & D1 & X1).
  destruct (shr (shr_record_of_loc mx lx) ex n1) as [rs1 e1].
  cbn [fst snd] in *. rewrite M0 in D1, X1.
  destruct (round_nearest_even_cases rs1) as [C2 X2].
  set (m2 := round_nearest_even (shr_m rs1) (loc_of_shr_record rs1)) in *.
  assert (P2 : 0 <= m2) by lia.
  set (n3 := fexp prec emax (Zdigits2 m2 + e1) - e1).
  destruct (shr_spec (shr_record_of_loc m2 loc_Exact) e1 n3 P2) as (E3 & P3 & D3 & _).
  destruct (shr (shr_record_of_loc m2 loc_Exact) e1 n3) as [rs3 e3].
  cbn [fst snd shr_m shr_record_of_loc] in *.
  exists (shr_m rs3), e3. split; [assumption|]. split.
  { destruct (shr_m rs3); reflexivity. }
  split.
  - intros c Hc Hle. rewrite D3, E3. apply shift_ge; try assumption.
    apply Rle_trans with (F2R (shr_m rs1) e1).
    + rewrite D1, E1. apply shift_ge; assumption.
    + apply F2R_le. lia.
  - intros -> c Hc Hle. rewrite D3, E3.
    eapply Rle_trans; [apply F2R_floor_le; lia|].
    destruct (Z.eq_dec (mx mod 2 ^ Z.max n1 0) 0) as [Hz|Hnz].
    + assert (m2 = shr_m rs1) as -> by (apply X2; apply X1; auto).
      rewrite D1, E1. eapply Rle_trans; [apply F2R_floor_le; lia | assumption].
    + destruct C2 as [-> | ->].
      * rewrite D1, E1. eapply Rle_trans; [apply F2R_floor_le; lia | assumption].
      * rewrite D1, E1. apply shift_up_le; assumption.
Qed.

Lemma representable_pos (c : R) : representable c -> (0 < c)%R.
Proof. intros (k & j & Hk & _ & ->). apply F2R_pos. lia. Qed.

Lemma F2R_pow_mono (m e1 e2 : Z) : 0 < m -> e1 <= e2 -> (F2R 1 e1 <= F2R m e2)%R.
Proof.
  intros Hm He. rewrite (F2R_align m e2 e1) by lia. apply F2R_le.
  assert (0 < 2 ^ (e2 - e1)) by (apply Z.pow_pos_nonneg; lia). nia.
Qed.

(** The result of [binary_round_aux] carries the sign it was given. *)
Lemma round_aux_shape (sx : bool) (mx ex : Z) (lx : location) :
  0 <= mx ->
  match binary_round_aux prec emax sx mx ex lx with
  | S754_zero s | S754_finite s _ _ | S754_infinity s => s = sx
  | S754_nan => False
  end.
Proof.
  intros H. destruct (binary_round_aux_spec sx mx ex lx H) as (m3 & e3 & P & -> & _).
  destruct m3; try lia; [reflexivity|]. destruct (e3 <=? 971); reflexivity.
Qed.

Lemma round_aux_at_least (mx ex : Z) (lx : location) (c : R) :
  0 <= mx -> representable c -> (c <= F2R mx ex)%R ->
  at_least c (xval_of_float (binary_round_aux prec emax false mx ex lx)).
Proof.
  intros H Hc Hle.
  destruct (binary_round_aux_spec false mx ex lx H) as (m3 & e3 & P & -> & G & _).
  specialize (G c Hc Hle). destruct m3 as [|p|p]; try lia.
  - simpl. rewrite F2R_0 in *. assumption.
  - destruct (e3 <=? 971); simpl; auto.
Qed.

(** An exact operand at most a representable [c] below [2^972]
    rounds to a finite float at most [c]. *)
Lemma round_aux_at_most (mx ex : Z) (c : R) :
  0 <= mx -> representable c -> (c < F2R 1 972)%R -> (F2R mx ex <= c)%R ->
  let r := binary_round_aux prec emax false mx ex loc_Exact in
  nonneg_finite r /\ (fval r <= c)%R.
Proof.
  intros H Hc Hsmall Hle r. subst r.
  destruct (binary_round_aux_spec false mx ex loc_Exact H)
    as (m3 & e3 & P & -> & _ & L).
  specialize (L eq_refl c Hc Hle). pose proof (representable_pos c Hc).
  destruct m3 as [|p|p]; try lia.
  - split; [exact I|]. unfold fval. simpl. rewrite F2R_0. lra.
  - destruct (Z.leb_spec e3 971).
    + split; [exact I|]. exact L.
    + exfalso. pose proof (F2R_pow_mono (Zpos p) 972 e3 ltac:(lia) ltac:(lia)). lra.
Qed.

(** ** Multiplication *)

Lemma F2R_mul (m1 e1 m2 e2 : Z) :
  F2R (m1 * m2) (e1 + e2) = (F2R m1 e1 * F2R m2 e2)%R.
Proof. unfold F2R. rewrite mult_IZR, pow2_add. ring. Qed.

Lemma fval_nonneg (x : float) : nonneg_finite x -> (0 <= fval x)%R.
Proof.
  destruct x as [s|s| |[|] m e]; simpl; try contradiction; intros _; unfold fval; simpl.
  - rewrite F2R_0. lra.
  - apply Rlt_le, F2R_pos. lia.
Qed.

Lemma mul_at_most (x y : float) (c : R) :
  nonneg_finite x -> nonneg_finite y ->
  representable c -> (c < F2R 1 972)%R -> (fval x * fval y <= c)%R ->
  nonneg_finite (mul x y) /\ (fval (mul x y) <= c)%R.
Proof.
  intros Hx Hy Hc Hs Hle. pose proof (representable_pos c Hc).
  destruct x as [sx|sx| |[|] mx ex]; try contradiction;
    destruct y as [sy|sy| |[|] my ey]; try contradiction;
    try (split; [exact I | unfold fval; simpl; rewrite F2R_0; lra]).
  unfold mul, SFmul. cbn [xorb].
  apply round_aux_at_most; try assumption; [lia|].
  rewrite Pos2Z.inj_mul, F2R_mul. exact Hle.
Qed.

Lemma mul_at_least (x y : float) (c : R) :
  nonneg_finite x -> nonneg_finite y ->
  representable c -> (c <= fval x * fval y)%R ->
  at_least c (xval_of_float (mul x y)).
Proof.
  intros Hx Hy Hc Hle. pose proof (representable_pos c Hc).
  destruct x as [sx|sx| |[|] mx ex]; try contradiction;
    destruct y as [sy|sy| |[|] my ey]; try contradiction;
    try (exfalso; unfold fval in Hle; simpl in Hle; rewrite ?F2R_0 in Hle; lra).
  unfold mul, SFmul. cbn [xorb].
  apply round_aux_at_least; try assumption; [lia|].
  rewrite Pos2Z.inj_mul, F2R_mul. exact Hle.
Qed.

(** A finite float that is both at least and at most [c] has the
    value [c]. *)
Lemma mul_exact (x y : float) (c : R) :
  nonneg_finite x -> nonneg_finite y ->
  representable c -> (c < F2R 1 972)%R -> (fval x * fval y = c)%R ->
  nonneg_finite (mul x y) /\ fval (mul x y) = c.
Proof.
  intros Hx Hy Hc Hs He.
  destruct (mul_at_most x y c Hx Hy Hc Hs ltac:(lra)) as [F L].
  pose proof (mul_at_least x y c Hx Hy Hc ltac:(lra)) as G.
  split; [assumption|].
  destruct (mul x y) as [s|s| |[|] m e]; try contradiction;
    unfold fval in *; simpl in *; lra.
Qed.

(** ** Alignment, [binary_normalize] and subtraction *)

Lemma iter_xO_value (m d : positive) :
  Zpos (Pos.iter xO m d) = Zpos m * 2 ^ Zpos d.
Proof.
  induction d as [|d IH] using Pos.peano_ind.
  - simpl. lia.
  - rewrite Pos.iter_succ, Pos2Z.inj_succ, Z.pow_succ_r by lia.
    rewrite Pos2Z.inj_xO, IH. ring.
Qed.

Lemma shl_align_fst (m : positive) (e e' : Z) :
  e' <= e -> Zpos (fst (shl_align m e e')) = Zpos m * 2 ^ (e - e').
Proof.
  intros H. unfold shl_align. destruct (e' - e) as [|d|d] eqn:E; cbn [fst].
  - replace (e - e') with 0 by lia. rewrite Z.pow_0_r. lia.
  - lia.
  - rewrite iter_xO_value. f_equal. f_equal. lia.
Qed.

Lemma shl_align_value (m : positive) (e e' : Z) :
  F2R (Zpos (fst (shl_align m e e'))) (snd (shl_align m e e')) = F2R (Zpos m) e.
Proof.
  unfold shl_align. destruct (e' - e) as [|d|d] eqn:E; simpl; try reflexivity.
  rewrite iter_xO_value, F2R_scale by lia. f_equal. lia.
Qed.

Lemma binary_round_eq (s : bool) (m : positive) (e : Z) :
  exists (mz : positive) (ez : Z),
    binary_round prec emax s m e =
      binary_round_aux prec emax s (Zpos mz) ez loc_Exact /\
    F2R (Zpos mz) ez = F2R (Zpos m) e.
Proof.
  unfold binary_round.
  pose proof (shl_align_value m e (fexp prec emax (Zpos (digits2_pos m) + e))) as V.
  destruct (shl_align m e (fexp prec emax (Zpos (digits2_pos m) + e))) as [mz ez].
  exists mz, ez. split; [reflexivity | exact V].
Qed.

Lemma normalize_at_least (m e : Z) (c : R) :
  representable c -> (c <= F2R m e)%R ->
  at_least c (xval_of_float (binary_normalize prec emax m e false)).
Proof.
  intros Hc Hle. pose proof (representable_pos c Hc) as Hp.
  destruct m as [|p|p]; simpl.
  - rewrite F2R_0 in *. lra.
  - destruct (binary_round_eq false p e) as (mz & ez & -> & V).
    apply round_aux_at_least; first [lia | assumption | rewrite V; assumption].
  - exfalso. change (Z.neg p) with (- Z.pos p) in Hle. rewrite F2R_opp in Hle.
    pose proof (F2R_pos (Z.pos p) e ltac:(lia)). lra.
Qed.

Lemma normalize_nonpos (m e : Z) :
  m <= 0 -> nonpos (binary_normalize prec emax m e false).
Proof.
  intros H. destruct m as [|p|p]; [exact I | lia | cbn [binary_normalize]].
  destruct (binary_round_eq true p e) as (mz & ez & -> & _).
  pose proof (round_aux_shape true (Zpos mz) ez loc_Exact ltac:(lia)) as S.
  destruct (binary_round_aux _ _ _ _ _ _) as [s|s| |s ? ?]; try contradiction;
    subst; exact I.
Qed.

Lemma normalize_not_nan (m e : Z) :
  is_nan (binary_normalize prec emax m e false) = false.
Proof.
  destruct m as [|p|p]; simpl; [reflexivity| |].
  - destruct (binary_round_eq false p e) as (mz & ez & -> & _).
    pose proof (round_aux_shape false (Zpos mz) ez loc_Exact ltac:(lia)) as S.
    destruct (binary_round_aux _ _ _ _ _ _); try contradiction; reflexivity.
  - destruct (binary_round_eq true p e) as (mz & ez & -> & _).
    pose proof (round_aux_shape true (Zpos mz) ez loc_Exact ltac:(lia)) as S.
    destruct (binary_round_aux _ _ _ _ _ _); try contradiction; reflexivity.
Qed.

Lemma fval_finite (s : bool) (m : positive) (e : Z) :
  fval (S754_finite s m e) = F2R (cond_Zopp s (Zpos m)) e.
Proof. reflexivity. Qed.

Lemma fval_zero (s : bool) : fval (S754_zero s) = 0%R.
Proof. unfold fval. simpl. apply F2R_0. Qed.

(** The difference of two finite floats is the rounding of the exact
    difference. *)
Lemma sub_finite_eq (sx : bool) (mx : positive) (ex : Z)
    (sy : bool) (my : positive) (ey : Z) :
  exists m : Z,
    sub (S754_finite sx mx ex) (S754_finite sy my ey) =
      binary_normalize prec emax m (Z.min ex ey) false /\
    F2R m (Z.min ex ey) =
      (fval (S754_finite sx mx ex) - fval (S754_finite sy my ey))%R.
Proof.
  eexists. split; [reflexivity|].
  rewrite !fval_finite.
  rewrite (F2R_align (cond_Zopp sx (Z.pos mx)) ex (Z.min ex ey)) by lia.
  rewrite (F2R_align (cond_Zopp sy (Z.pos my)) ey (Z.min ex ey)) by lia.
  change (IntDef.Z.min ex ey) with (Z.min ex ey).
  rewrite (shl_align_fst mx ex (Z.min ex ey)) by lia.
  rewrite (shl_align_fst my ey (Z.min ex ey)) by lia.
  unfold F2R. rewrite <- Rmult_minus_distr_r, <- minus_IZR. f_equal. f_equal.
  destruct sx, sy; unfold cond_Zopp; ring.
Qed.

Lemma fval_sign_true (m : positive) (e : Z) : (fval (S754_finite true m e) < 0)%R.
Proof.
  rewrite fval_finite. simpl cond_Zopp. change (Z.neg m) with (- Z.pos m).
  rewrite F2R_opp. pose proof (F2R_pos (Z.pos m) e ltac:(lia)). lra.
Qed.

Lemma fval_sign_false (m : positive) (e : Z) : (0 < fval (S754_finite false m e))%R.
Proof. rewrite fval_finite. apply F2R_pos. simpl. lia. Qed.

Lemma sub_not_nan (x y : float) :
  is_finite x = true -> is_finite y = true -> is_nan (sub x y) = false.
Proof.
  intros Hx Hy.
  destruct x as [sx|sx| |sx mx ex]; try discriminate;
    destruct y as [sy|sy| |sy my ey]; try discriminate.
  - destruct sx, sy; reflexivity.
  - reflexivity.
  - reflexivity.
  - destruct (sub_finite_eq sx mx ex sy my ey) as (m & -> & _).
    apply normalize_not_nan.
Qed.

Lemma sub_at_least (x y : float) (c : R) :
  is_finite x = true -> is_finite y = true ->
  representable c -> (c <= fval x - fval y)%R ->
  at_least c (xval_of_float (sub x y)).
Proof.
  intros Hx Hy Hc Hle. pose proof (representable_pos c Hc) as Hp.
  destruct x as [sx|sx| |sx mx ex]; try discriminate;
    destruct y as [sy|sy| |sy my ey]; try discriminate.
  - rewrite !fval_zero in Hle. lra.
  - rewrite fval_zero in Hle. unfold sub, SFsub. simpl.
    rewrite fval_finite in Hle. destruct sy; simpl in *.
    + change (Z.neg my) with (- Z.pos my) in Hle. rewrite F2R_opp in Hle. lra.
    + change (Z.neg my) with (- Z.pos my). rewrite F2R_opp.
      pose proof (F2R_pos (Z.pos my) ey ltac:(lia)). lra.
  - rewrite fval_zero in Hle. unfold sub, SFsub. simpl.
    rewrite fval_finite in Hle. lra.
  - destruct (sub_finite_eq sx mx ex sy my ey) as (m & -> & V).
    apply normalize_at_least; [assumption | rewrite V; assumption].
Qed.

Lemma sub_nonpos (x y : float) :
  is_finite x = true -> is_finite y = true ->
  (fval x - fval y <= 0)%R -> nonpos (sub x y).
Proof.
  intros Hx Hy Hle.
  destruct x as [sx|sx| |sx mx ex]; try discriminate;
    destruct y as [sy|sy| |sy my ey]; try discriminate.
  - destruct sx, sy; exact I.
  - rewrite fval_zero in Hle. destruct sy; [|exact I].
    pose proof (fval_sign_true my ey). lra.
  - rewrite fval_zero in Hle. destruct sx; [exact I|].
    pose proof (fval_sign_false mx ex). lra.
  - destruct (sub_finite_eq sx mx ex sy my ey) as (m & -> & V).
    apply normalize_nonpos. rewrite <- V in Hle.
    rewrite <- (F2R_0 (Z.min ex ey)) in Hle. now apply F2R_le in Hle.
Qed.

(** ** Division *)

(** The quotient handed to the rounding is on the right side of every
    representable number below the exact quotient. *)
Lemma div_core_spec (m1 e1 m2 e2 : Z) :
  0 < m1 -> 0 < m2 ->
  exists (q e' : Z) (l : location),
    SFdiv_core_binary prec emax m1 e1 m2 e2 = (q, e', l) /\
    0 <= q /\
    forall c, representable c ->
      (c * F2R m2 e2 <= F2R m1 e1)%R -> (c <= F2R q e')%R.
Proof.
  intros H1 H2. unfold SFdiv_core_binary.
  set (e' := IntDef.Z.min _ _).
  set (s := IntDef.Z.sub (IntDef.Z.sub e1 e2) e').
  set (m' := match s with Z.pos _ => _ | _ => _ end).
  assert (Ee : e' = Z.min (fexp prec emax (Zdigits2 m1 + e1 - (Zdigits2 m2 + e2)))
                          (e1 - e2)) by reflexivity.
  assert (Es : s = e1 - e2 - e') by reflexivity.
  assert (Hs : 0 <= s) by lia.
  assert (Em : m' = m1 * 2 ^ s).
  { subst m'. destruct s as [|p|p] eqn:E; try lia.
    change (IntDef.Z.shiftl m1 (Z.pos p)) with (Z.shiftl m1 (Z.pos p)).
    apply Z.shiftl_mul_pow2. lia. }
  clearbody e' s m'.
  assert (Hp : 0 < 2 ^ s) by (apply Z.pow_pos_nonneg; lia).
  pose proof (Z_div_mod m' m2 ltac:(lia)) as DM.
  change (IntDef.Z.div_eucl m' m2) with (Z.div_eucl m' m2).
  destruct (Z.div_eucl m' m2) as [q r]. destruct DM as [DM Hr].
  assert (Hq : 0 <= q) by nia.
  exists q, e', (new_location m2 r). split; [reflexivity|]. split; [assumption|].
  intros c (k & j & Hk & Hj & ->) Hle.
  assert (V1 : F2R m1 e1 = F2R m' (e2 + e')).
  { rewrite Em, F2R_scale by lia. f_equal. lia. }
  rewrite V1 in Hle.
  destruct (Z.le_gt_cases e' j) as [Hj'|Hj'].
  - rewrite (F2R_align k j e') in * by lia.
    rewrite <- F2R_mul in Hle.
    replace (e' + e2) with (e2 + e') in Hle by lia.
    apply F2R_le in Hle. apply F2R_le. nia.
  - apply Rlt_le. apply big_mantissa_gt; try assumption.
    rewrite fexp_eq in Ee.
    pose proof (Zdigits2_bounds m1 H1) as B1.
    pose proof (Zdigits2_bounds m2 H2) as B2.
    pose proof (Zdigits2_pos m1 H1). pose proof (Zdigits2_pos m2 H2).
    assert (Hs' : 53 - Zdigits2 m1 + Zdigits2 m2 <= s) by lia.
    assert (P : 2 ^ (52 + Zdigits2 m2) <= m').
    { rewrite Em.
      apply Z.le_trans with (2 ^ (Zdigits2 m1 - 1) * 2 ^ s); [|nia].
      rewrite <- Z.pow_add_r by lia. apply Z.pow_le_mono_r; lia. }
    rewrite Z.pow_add_r in P by lia.
    assert (0 < 2 ^ 52) by reflexivity.
    nia.
Qed.

Lemma div_at_least (x y : float) (c : R) :
  nonneg x -> (exists my ey, y = S754_finite false my ey) ->
  representable c ->
  at_least (c * fval y) (xval_of_float x) ->
  at_least c (xval_of_float (fdiv x y)).
Proof.
  intros Hx (my & ey & ->) Hc Hle. pose proof (representable_pos c Hc) as Hp.
  pose proof (fval_sign_false my ey) as Hy.
  destruct x as [sx|sx| |sx mx ex]; try contradiction.
  - simpl in Hle. rewrite F2R_0 in Hle. exfalso. nra.
  - destruct sx; [contradiction|]. reflexivity.
  - destruct sx; [contradiction|]. unfold fdiv, SFdiv.
    destruct (div_core_spec (Z.pos mx) ex (Z.pos my) ey ltac:(lia) ltac:(lia))
      as (q & e' & l & -> & Hq & G).
    cbn [xorb]. apply round_aux_at_least; try assumption.
    apply G; assumption.
Qed.

Lemma div_not_nan (x y : float) :
  is_nan x = false -> (exists my ey, y = S754_finite false my ey) ->
  is_nan (fdiv x y) = false.
Proof.
  intros Hx (my & ey & ->).
  destruct x as [sx|sx| |sx mx ex]; try discriminate; try reflexivity.
  unfold fdiv, SFdiv.
  destruct (div_core_spec (Z.pos mx) ex (Z.pos my) ey ltac:(lia) ltac:(lia))
    as (q & e' & l & -> & Hq & _).
  pose proof (round_aux_shape (xorb sx false) q e' l Hq) as S.
  destruct (binary_round_aux _ _ _ _ _ _); try contradiction; reflexivity.
Qed.

Lemma div_nonpos (x y : float) :
  nonpos x -> (exists my ey, y = S754_finite false my ey) ->
  nonpos (fdiv x y).
Proof.
  intros Hx (my & ey & ->).
  destruct x as [sx|sx| |sx mx ex]; try contradiction.
  - exact I.
  - destruct sx; [exact I | contradiction].
  - destruct sx; [|contradiction]. unfold fdiv, SFdiv.
    destruct (div_core_spec (Z.pos mx) ex (Z.pos my) ey ltac:(lia) ltac:(lia))
      as (q & e' & l & -> & Hq & _).
    pose proof (round_aux_shape (xorb true false) q e' l Hq) as S.
    destruct (binary_round_aux _ _ _ _ _ _); try contradiction;
      cbn in S; subst; exact I.
Qed.

(** [int / int] gives a finite float. *)
Lemma int_truediv_finite (x y : Z) (q : float) :
  int_truediv x y = Ok q -> is_finite q = true.
Proof.
  unfold int_truediv. destruct (y =? 0) eqn:Ey; [discriminate|].
  destruct (x =? 0) eqn:Ex; [intros [= <-]; reflexivity|].
  apply Z.eqb_neq in Ey. apply Z.eqb_neq in Ex.
  unfold round_quotient.
  destruct (div_core_spec (Z.abs x) 0 (Z.abs y) 0 ltac:(lia) ltac:(lia))
    as (n & e' & l & -> & Hn & _).
  pose proof (round_aux_shape (xorb (x <? 0) (y <? 0)) n e' l Hn) as S.
  destruct (binary_round_aux _ _ _ _ _ _); try contradiction;
    simpl; intros [= <-]; reflexivity.
Qed.

(** ** [round] *)

Lemma round_half_even_nonneg (m e : Z) : 0 <= m -> 0 <= round_half_even m e.
Proof.
  intros Hm. unfold round_half_even. destruct (0 <=? e) eqn:E.
  - apply Z.leb_le in E. assert (0 < 2 ^ e) by (apply Z.pow_pos_nonneg; lia). nia.
  - apply Z.leb_gt in E. assert (Hd : 0 < 2 ^ (- e)) by (apply Z.pow_pos_nonneg; lia).
    pose proof (Z.div_pos m (2 ^ (- e)) Hm Hd).
    destruct (2 * (m mod 2 ^ (- e)) ?= 2 ^ (- e)); [destruct (Z.even _)| |]; lia.
Qed.

Lemma round_half_even_le (m e n : Z) :
  (F2R m e <= IZR n)%R -> round_half_even m e <= n.
Proof.
  intros H. unfold round_half_even. destruct (0 <=? e) eqn:E.
  - apply Z.leb_le in E. rewrite <- F2R_int, <- (Z.add_0_l e), <- F2R_scale in H by lia.
    now apply F2R_le in H.
  - apply Z.leb_gt in E. assert (Hd : 0 < 2 ^ (- e)) by (apply Z.pow_pos_nonneg; lia).
    rewrite <- F2R_int, (F2R_align n 0 e) in H by lia. apply F2R_le in H.
    replace (0 - e) with (- e) in H by lia.
    pose proof (Z.div_mod m (2 ^ (- e)) ltac:(lia)) as DM.
    pose proof (Z.mod_pos_bound m (2 ^ (- e)) Hd) as MB.
    assert (Hq : m / 2 ^ (- e) <= n) by (apply Z.div_le_upper_bound; lia).
    destruct (Z.eq_dec (m / 2 ^ (- e)) n) as [Q|Q].
    + assert (m mod 2 ^ (- e) = 0) by nia.
      replace (2 * (m mod 2 ^ (- e)) ?= 2 ^ (- e)) with Lt; [lia|].
      symmetry. apply Z.compare_lt_iff. lia.
    + destruct (2 * (m mod 2 ^ (- e)) ?= 2 ^ (- e)); [destruct (Z.even _)| |]; lia.
Qed.

Lemma round_half_even_exact (m e n : Z) :
  F2R m e = IZR n -> round_half_even m e = n.
Proof.
  intros H. unfold round_half_even. destruct (0 <=? e) eqn:E.
  - apply Z.leb_le in E. rewrite <- F2R_int, <- (Z.add_0_l e), <- F2R_scale in H by lia.
    apply Z.le_antisymm; apply F2R_le with 0%Z; rewrite H; lra.
  - apply Z.leb_gt in E. assert (Hd : 0 < 2 ^ (- e)) by (apply Z.pow_pos_nonneg; lia).
    rewrite <- F2R_int, (F2R_align n 0 e) in H by lia.
    replace (0 - e) with (- e) in H by lia.
    assert (Hm : m = n * 2 ^ (- e)).
    { apply Z.le_antisymm; apply F2R_le with e; rewrite H; lra. }
    rewrite Hm, Z.div_mul, Z.mod_mul by lia.
    assert (C : (2 * 0 ?= 2 ^ (- e)) = Lt) by (apply Z.compare_lt_iff; lia).
    rewrite C. reflexivity.
Qed.

(** Half-way between [n] and [n + 1] the even one is chosen. *)
Lemma round_half_even_tie (m e n : Z) :
  (2 * F2R m e = IZR (2 * n + 1))%R ->
  round_half_even m e = if Z.even n then n else n + 1.
Proof.
  intros H. unfold round_half_even.
  replace (2 * F2R m e)%R with (F2R (2 * m) e) in H
    by (unfold F2R; rewrite mult_IZR; ring).
  destruct (0 <=? e) eqn:E.
  - apply Z.leb_le in E. exfalso.
    rewrite <- F2R_int, <- (Z.add_0_l e), <- F2R_scale in H by lia.
    assert (2 * m * 2 ^ e = 2 * n + 1); [|lia].
    apply Z.le_antisymm; apply F2R_le with 0%Z; rewrite H; lra.
  - apply Z.leb_gt in E.
    rewrite <- F2R_int, (F2R_align (2 * n + 1) 0 e) in H by lia.
    assert (Hm : 2 * m = (2 * n + 1) * 2 ^ (0 - e)).
    { apply Z.le_antisymm; apply F2R_le with e; rewrite H; lra. }
    replace (0 - e) with (Z.succ (- e - 1)) in Hm by lia.
    rewrite Z.pow_succ_r in Hm by lia.
    replace (- e) with (Z.succ (- e - 1)) by lia.
    rewrite Z.pow_succ_r by lia.
    set (h := 2 ^ (- e - 1)) in *.
    assert (Hh : 0 < h) by (apply Z.pow_pos_nonneg; lia).
    assert (Em : m = n * (2 * h) + h) by lia.
    assert (Q : m / (2 * h) = n) by (symmetry; apply Z.div_unique with h; lia).
    assert (Rm : m mod (2 * h) = h) by (symmetry; apply Z.mod_unique with n; lia).
    rewrite Q, Rm, Z.compare_refl. reflexivity.
Qed.

Lemma round_nonneg_le (x : float) (n : Z) :
  nonneg_finite x -> (fval x <= IZR n)%R ->
  exists v, round x = Ok v /\ 0 <= v <= n.
Proof.
  intros Hx Hle. destruct x as [s|s| |[|] m e]; try contradiction.
  - exists 0. split; [reflexivity|]. rewrite fval_zero in Hle.
    apply le_IZR in Hle. lia.
  - eexists. split; [reflexivity|]. cbn [cond_Zopp]. split.
    + apply round_half_even_nonneg. lia.
    + apply round_half_even_le. exact Hle.
Qed.

Lemma round_exact (x : float) (n : Z) :
  nonneg_finite x -> fval x = IZR n -> round x = Ok n.
Proof.
  intros Hx He. destruct x as [s|s| |[|] m e]; try contradiction.
  - rewrite fval_zero in He. apply eq_IZR in He. subst. reflexivity.
  - simpl. f_equal. apply round_half_even_exact. exact He.
Qed.

Lemma round_tie (x : float) (n : Z) :
  nonneg_finite x -> (2 * fval x = IZR (2 * n + 1))%R ->
  round x = Ok (if Z.even n then n else n + 1).
Proof.
  intros Hx He. destruct x as [s|s| |[|] m e]; try contradiction.
  - rewrite fval_zero in He. exfalso.
    replace (2 * 0)%R with (IZR 0) in He by (simpl; ring).
    apply eq_IZR in He. lia.
  - simpl. f_equal. apply round_half_even_tie. exact He.
Qed.

(** ** [speed_for_rpm] *)

Lemma py_lt_not_ge (a b : pynum) : py_lt a b = true -> py_ge a b = false.
Proof.
  unfold py_lt, py_ge. destruct (py_compare a b) as [[| |]|]; congruence.
Qed.


(** A difference whose left operand is a float is a float. *)
Lemma py_sub_float_l (x : float) (b r : pynum) :
  py_sub (PFloat x) b = Ok r -> exists y, r = PFloat y.
Proof.
  unfold py_sub, py_arith. cbn [to_float rbind].
  destruct (to_float b); cbn [rbind]; [|discriminate].
  intros [= <-]. eauto.
Qed.

(** The discriminant is a float whenever it has a value. *)
Lemma discriminant_is_float (a b c : float) (rpm d : pynum) :
  discriminant a b c rpm = Ok d -> exists x, d = PFloat x.
Proof.
  unfold discriminant.
  change (py_mul (PFloat b) (PFloat b)) with (Ok (PFloat (mul b b))).
  cbn [rbind].
  destruct (py_mul (PInt 4) (PFloat a)) as [fa|]; cbn [rbind]; [|discriminate].
  destruct (py_sub (PFloat c) rpm) as [cr|]; cbn [rbind]; [|discriminate].
  destruct (py_mul fa cr) as [t|]; cbn [rbind]; [|discriminate].
  apply py_sub_float_l.
Qed.




(** C1 (amended): with a negative leading coefficient, a target other
    than 0 and a negative discriminant, [val] is the sentinel 256, the
    warning is printed, and [speed_for_rpm] returns 256 clamped to
    255. *)
Theorem speed_for_rpm_negative_discriminant (info : Model) (fan_id : Z)
    (model : RpmModel) (a b c : float) (rpm d : pynum) :
  rpm_model_of info fan_id = Ok (Some model) ->
  coefficients (poly model) = Ok (a, b, c) ->
  py_lt (PFloat a) (PInt 0) = true ->
  py_eq rpm (PInt 0) = false ->
  discriminant a b c rpm = Ok d ->
  py_lt d (PInt 0) = true ->
  solve_or_sentinel a b c rpm = Ok (PInt 256) /\
  speed_for_rpm info fan_id rpm = Ok (255, true).
Proof.
  intros Hm Hc Ha Hz Hd Hneg.
  destruct (discriminant_is_float a b c rpm d Hd) as [x ->].
  assert (Hs : solve_or_sentinel a b c rpm = Ok (PInt 256)).
  { unfold solve_or_sentinel, solve. rewrite Hd. cbn [rbind].
    unfold math_sqrt. cbn [to_float rbind]. rewrite Hneg. reflexivity. }
  split; [exact Hs|].
  unfold speed_for_rpm. rewrite Hm. cbn [rbind]. rewrite Hz, Hc. cbn [rbind].
  rewrite (py_lt_not_ge _ _ Ha), Hs. cbn [rbind].
  unfold out_of_domain.
  replace (py_gt (PInt 256) (PInt 254)) with true by reflexivity.
  rewrite orb_true_r. reflexivity.
Qed.

Lemma speed_for_rpm_negative_discriminant_witness :
  solve_or_sentinel
    (S754_finite true 5075016348091265 (-56))
    (S754_finite false 7898187846501007 (-47))
    (S754_finite true 4958797441269760 (-41)) (PInt 10000) = Ok (PInt 256) /\
  speed_for_rpm vivobook_s15 1 (PInt 10000) = Ok (255, true).
Proof.
  apply (speed_for_rpm_negative_discriminant vivobook_s15 1
           {| poly := "-0.07043x^2 +56.12x -2255"; first := 55;
              first_spin := 59; max_rpm := 8400 |}
           _ _ _ (PInt 10000)
           (PFloat (S754_finite true 5330858102360336 (-44))));
    vm_compute; reflexivity.
Defined.

(** C1 as stated fails: for the right fan of the Vivobook and a target
    of 10000 RPM the discriminant is negative, and the function
    returns 255, not 256. *)
Lemma speed_for_rpm_sentinel_is_clamped :
  exists a b c d,
    coefficients "-0.07043x^2 +56.12x -2255" = Ok (a, b, c) /\
    py_lt (PFloat a) (PInt 0) = true /\
    discriminant a b c (PInt 10000) = Ok d /\
    py_lt d (PInt 0) = true /\
    speed_for_rpm vivobook_s15 1 (PInt 10000) = Ok (255, true) /\
    forall warned, speed_for_rpm vivobook_s15 1 (PInt 10000) <> Ok (256, warned).
Proof.
  do 4 eexists. repeat split; try (vm_compute; reflexivity).
  intros warned. vm_compute. discriminate.
Qed.










(** ** [send_soc_temp] *)

Lemma byte_split (v : Z) :
  0 <= v <= 2000 ->
  Z.land v 0xff = v mod 256 /\ Z.shiftr v 8 = v / 256 /\
  0 <= v mod 256 < 256 /\ 0 <= v / 256 < 256 /\
  v mod 256 + 256 * (v / 256) = v.
Proof.
  intros Hv.
  change 0xff with (Z.ones 8). rewrite Z.land_ones by lia.
  rewrite Z.shiftr_div_pow2 by lia. change (2 ^ 8) with 256.
  pose proof (Z.mod_pos_bound v 256 ltac:(lia)).
  pose proof (Z.div_mod v 256 ltac:(lia)).
  assert (0 <= v / 256) by (apply Z.div_pos; lia).
  assert (v / 256 < 256) by (apply Z.div_lt_upper_bound; lia).
  repeat split; lia.
Qed.

Lemma Request_send_log (r : Request) (w : world) :
  bus_script w <> [] ->
  bus_log (snd (Request_send r w)) = bus_log w ++ [msgs r].
Proof.
  unfold Request_send. destruct (bus_script w) as [|[|p] t]; [congruence| |];
    intros _; reflexivity.
Qed.

Lemma py_bytes_ok (data : list Z) :
  Forall (fun x => 0 <= x < 256) data -> py_bytes data = Ok data.
Proof.
  intros H. unfold py_bytes.
  replace (forallb (fun x => (0 <=? x) && (x <? 256)) data) with true; [reflexivity|].
  symmetry. apply forallb_forall. intros x Hx.
  rewrite Forall_forall in H. specialize (H x Hx).
  apply andb_true_intro. split; [apply Z.leb_le | apply Z.ltb_lt]; lia.
Qed.

(** The one write segment of a request made of [data]. *)
Lemma Request_write_ok (a : Z) (data : list Z) :
  Forall (fun x => 0 <= x < 256) data ->
  Request_write (Request_new a) data =
  Ok {| req_addr := a;
        msgs := [{| addr := a; flags := 0;
                    len := Z.of_nat (List.length data); buf := data |}] |}.
Proof.
  intros H. unfold Request_write. rewrite (py_bytes_ok data H). reflexivity.
Qed.

(** A command made of one write and [send] hands the adapter that
    write, whatever the adapter answers. *)
Lemma write_send_log (a : Z) (data : list Z) (w : world) :
  Forall (fun x => 0 <= x < 256) data ->
  bus_script w <> [] ->
  bus_log (snd (bind (lift (Request_write (Request_new a) data))
                  (fun r1 => bind (Request_send r1) (fun _ => ret tt)) w)) =
  bus_log w ++ [[{| addr := a; flags := 0;
                    len := Z.of_nat (List.length data); buf := data |}]].
Proof.
  intros H Hs. rewrite (Request_write_ok a data H). cbn [lift].
  unfold bind, ret.
  match goal with
  | |- context [Request_send ?q w] =>
      pose proof (Request_send_log q w Hs) as L;
      destruct (Request_send q w) as [[p|e|] w']
  end; exact L.
Qed.

(** C9: [send_soc_temp(temp)] encodes [round(temp * 10)] clamped to
    0..2000 and hands the adapter one write to the fan address made of
    the command byte 0x20, the sub-header 0x01 0x02, the low byte and
    the high byte of that value, both valid bytes. *)
Theorem send_soc_temp_encoding (temp : pynum) (r : Z) (w : world) :
  rbind (py_mul temp (PInt 10)) py_round = Ok r ->
  bus_script w <> [] ->
  let v := Z.min (Z.max r 0) 2000 in
  0 <= v mod 256 < 256 /\ 0 <= v / 256 < 256 /\
  v mod 256 + 256 * (v / 256) = v /\
  bus_log (snd (send_soc_temp temp w)) =
    bus_log w ++ [soc_temp_transfer (v mod 256) (v / 256)].
Proof.
  intros Hr Hs v.
  assert (Ev : v = Z.min (Z.max r 0) 2000) by reflexivity. clearbody v.
  destruct (byte_split v ltac:(lia)) as (El & Eh & Bl & Bh & Es).
  repeat split; try lia.
  unfold send_soc_temp, soc_temp_code.
  destruct (py_mul temp (PInt 10)) as [t10|]; [|discriminate].
  cbn [rbind] in Hr |- *. rewrite Hr. cbn [rbind lift]. rewrite <- Ev.
  unfold bind at 1. unfold ret at 1. rewrite El, Eh.
  apply (write_send_log FAN_ADDR [0x20; 0x01; 0x02; v mod 256; v / 256] w);
    [|assumption].
  repeat constructor; lia.
Qed.

Lemma send_soc_temp_encoding_witness :
  0 <= 194 < 256 /\ 0 <= 1 < 256 /\ 194 + 256 * 1 = 450 /\
  bus_log (snd (send_soc_temp (PFloat (S754_finite false 6333186975989760 (-47)))
                  (scripted [] [BusData []] []))) =
    [soc_temp_transfer 0xC2 0x01].
Proof.
  exact (send_soc_temp_encoding
           (PFloat (S754_finite false 6333186975989760 (-47))) 450
           (scripted [] [BusData []] []) eq_refl
           ltac:(discriminate)).
Defined.

(** ** Runs of monadic commands *)

Lemma bind_Done {A B : Type} (m : M A) (k : A -> M B) (w w' : world) (b : B) :
  bind m k w = (Done b, w') ->
  exists a w1, m w = (Done a, w1) /\ k a w1 = (Done b, w').
Proof.
  unfold bind. destruct (m w) as [[a|e|] w1]; try discriminate. eauto.
Qed.

Lemma bind_Raised_l {A B : Type} (m : M A) (k : A -> M B) (w w' : world) (e : exn) :
  m w = (Raised e, w') -> bind m k w = (Raised e, w').
Proof. unfold bind. intros ->. reflexivity. Qed.

Lemma bind_Done_l {A B : Type} (m : M A) (k : A -> M B) (w w1 : world) (a : A) :
  m w = (Done a, w1) -> bind m k w = k a w1.
Proof. unfold bind. intros ->. reflexivity. Qed.

Lemma lift_world {A : Type} (r : result A) (w : world) : snd (lift r w) = w.
Proof. destruct r; reflexivity. Qed.

Lemma lift_Done {A : Type} (r : result A) (w w' : world) (a : A) :
  lift r w = (Done a, w') -> r = Ok a /\ w' = w.
Proof. destruct r; simpl; unfold ret, raise; intros [= ]; subst; auto. Qed.

(** A property of the world that every step keeps is kept by a bind. *)
Lemma bind_keeps {A B : Type} (P : world -> world -> Prop)
    (m : M A) (k : A -> M B) (w : world) :
  (forall x y z, P x y -> P y z -> P x z) ->
  P w (snd (m w)) ->
  (forall a w1, P w1 (snd (k a w1))) ->
  P w (snd (bind m k w)).
Proof.
  intros T Hm Hk. unfold bind. specialize (Hk) .
  destruct (m w) as [[a|e|] w1]; cbn [snd] in *; try assumption.
  eapply T; [exact Hm | apply Hk].
Qed.

(** ** The sensors and the report loop *)

Lemma same_sensors_trans (x y z : world) :
  same_sensors x y -> same_sensors y z -> same_sensors x z.
Proof. unfold same_sensors. congruence. Qed.

Lemma Request_send_sensors (r : Request) (w : world) :
  same_sensors w (snd (Request_send r w)).
Proof.
  unfold same_sensors, Request_send.
  destruct (bus_script w) as [|[|p] t]; reflexivity.
Qed.

Lemma lift_sensors {A : Type} (r : result A) (w : world) :
  same_sensors w (snd (lift r w)).
Proof. rewrite lift_world. reflexivity. Qed.

Lemma send_soc_temp_sensors (temp : pynum) (w : world) :
  same_sensors w (snd (send_soc_temp temp w)).
Proof.
  unfold send_soc_temp.
  apply bind_keeps; [exact same_sensors_trans | apply lift_sensors |].
  intros t w1.
  apply bind_keeps; [exact same_sensors_trans | apply lift_sensors |].
  intros r1 w2.
  apply bind_keeps; [exact same_sensors_trans | apply Request_send_sensors |].
  intros _ w3. reflexivity.
Qed.

(** A sample that comes back has taken one answer from the sensor
    script and left the log alone. *)
Lemma read_celsius_Done (fd : Z) (w w' : world) (t : pynum) :
  read_celsius fd w = (Done t, w') ->
  w' = pop_sensor w /\ sensor_script w <> [] /\
  exists x, t = PFloat x /\ is_finite x = true.
Proof.
  unfold read_celsius. intros H.
  apply bind_Done in H. destruct H as (b & w1 & H1 & H).
  apply bind_Done in H. destruct H as (z & w2 & H2 & H3).
  apply lift_Done in H2. destruct H2 as [H2 ->].
  apply lift_Done in H3. destruct H3 as [H3 ->].
  unfold os_pread in H1. destruct (sensor_script w) as [|[|s] rest] eqn:E;
    try discriminate.
  injection H1 as _ <-. split; [reflexivity|]. split; [discriminate|].
  unfold py_truediv in H3. cbn [rbind] in H3.
  destruct (int_truediv z 1000) as [q|] eqn:Eq; [|discriminate].
  injection H3 as <-. exists q. split; [reflexivity|].
  exact (int_truediv_finite z 1000 q Eq).
Qed.

Lemma hottest_from_failed_read (good : list string) :
  forall (zones : list Z) (temp : pynum) (w : world) (tail : list pread_reply),
  sensor_script w = map PreadBytes good ++ PreadError :: tail ->
  (List.length good < List.length zones)%nat ->
  exists e w', hottest_from temp zones w = (Raised e, w') /\
               bus_log w' = bus_log w.
Proof.
  induction good as [|s good IH]; intros zones temp w tail Hs Hl;
    destruct zones as [|fd rest]; simpl in Hl; try lia; cbn [hottest_from].
  - exists OSError, (pop_sensor w). split; [|reflexivity].
    apply bind_Raised_l. unfold read_celsius. apply bind_Raised_l.
    unfold os_pread. rewrite Hs. reflexivity.
  - unfold bind at 1.
    destruct (read_celsius fd w) as [[t|e|] w1] eqn:Er.
    + destruct (read_celsius_Done fd w w1 t Er) as (-> & _ & _).
      apply (IH rest (py_max temp t) (pop_sensor w) tail).
      * simpl. rewrite Hs. reflexivity.
      * lia.
    + exists e, w1. split; [reflexivity|].
      unfold read_celsius, bind, os_pread in Er. rewrite Hs in Er.
      cbn [map app] in Er.
      destruct (lift (PyStr.int_of (firstn 20 (PyStr.chars s))) (pop_sensor w))
        as [[z|e1|] w2] eqn:E1.
      * pose proof (lift_world (PyStr.int_of (firstn 20 (PyStr.chars s))) (pop_sensor w)) as L1.
        rewrite E1 in L1. cbn [snd] in L1. subst w2.
        pose proof (lift_world (py_truediv (PInt z) (PInt 1000)) (pop_sensor w)) as L2.
        destruct (lift (py_truediv (PInt z) (PInt 1000)) (pop_sensor w))
          as [[q|e2|] w3]; cbn [snd] in L2; subst w3;
          injection Er as _ <-; reflexivity.
      * pose proof (lift_world (PyStr.int_of (firstn 20 (PyStr.chars s))) (pop_sensor w)) as L1.
        rewrite E1 in L1. cbn [snd] in L1. subst w2.
        injection Er as _ <-. reflexivity.
      * pose proof (lift_world (PyStr.int_of (firstn 20 (PyStr.chars s))) (pop_sensor w)) as L1.
        rewrite E1 in L1. cbn [snd] in L1. subst w2.
        discriminate.
    + exfalso. unfold read_celsius, bind, os_pread in Er. rewrite Hs in Er.
      cbn [map app] in Er.
      destruct (PyStr.int_of (firstn 20 (PyStr.chars s))) as [z|e1];
        cbn [lift] in Er; unfold ret, raise in Er; [|discriminate].
      destruct (py_truediv (PInt z) (PInt 1000)); cbn [lift] in Er;
        unfold ret, raise in Er; discriminate.
Qed.

Lemma report_cycle_failed_read (zones : list Z) (w : world)
    (good : list string) (tail : list pread_reply) :
  sensor_script w = map PreadBytes good ++ PreadError :: tail ->
  (List.length good < List.length zones)%nat ->
  exists e w', report_cycle zones w = (Raised e, w') /\ bus_log w' = bus_log w.
Proof.
  intros Hs Hl.
  destruct (hottest_from_failed_read good zones (PInt 0) w tail Hs Hl)
    as (e & w' & H & L).
  exists e, w'. split; [|exact L].
  unfold report_cycle. apply bind_Raised_l. exact H.
Qed.

Lemma report_cycles_failed_read (zones : list Z) (good : list string)
    (tail : list pread_reply) (j : nat) :
  forall (n : nat) (w wj : world),
  completed_cycles j zones w = (Done tt, wj) ->
  sensor_script wj = map PreadBytes good ++ PreadError :: tail ->
  (List.length good < List.length zones)%nat ->
  (j < n)%nat ->
  exists e w', report_cycles n zones w = (Raised e, w') /\
               bus_log w' = bus_log wj.
Proof.
  induction j as [|j IH]; intros n w wj Hc Hs Hl Hn;
    destruct n as [|n]; try lia; cbn [report_cycles].
  - injection Hc as <-.
    destruct (report_cycle_failed_read zones w good tail Hs Hl) as (e & w' & H & L).
    exists e, w'. split; [|exact L]. apply bind_Raised_l. exact H.
  - cbn [completed_cycles] in Hc. apply bind_Done in Hc.
    destruct Hc as ([] & w1 & H1 & H2).
    rewrite (bind_Done_l _ _ w w1 tt H1).
    apply (IH n w1 wj); try assumption. lia.
Qed.

Lemma py_max_cases (a b : pynum) : py_max a b = a \/ py_max a b = b.
Proof. unfold py_max. destruct (py_gt b a); auto. Qed.

(** A completed sampling has read one answer per zone, touched
    nothing else, and holds a sampled temperature. *)
Lemma hottest_from_Done (zones : list Z) :
  forall (temp : pynum) (w w' : world) (t : pynum),
  sampled temp ->
  hottest_from temp zones w = (Done t, w') ->
  sampled t /\
  List.length (sensor_script w) =
    (List.length zones + List.length (sensor_script w'))%nat /\
  bus_log w' = bus_log w /\ bus_script w' = bus_script w.
Proof.
  induction zones as [|fd rest IH]; intros temp w w' t Ht H; cbn [hottest_from] in H.
  - injection H as <- <-. auto.
  - apply bind_Done in H. destruct H as (t1 & w1 & H1 & H2).
    destruct (read_celsius_Done fd w w1 t1 H1) as (-> & Hne & x & -> & Hx).
    assert (S1 : sampled (py_max temp (PFloat x))).
    { destruct (py_max_cases temp (PFloat x)) as [-> | ->]; [assumption|].
      right. eauto. }
    destruct (IH _ _ _ _ S1 H2) as (St & Hl & Hb & Hs).
    split; [assumption|]. split; [|split; assumption].
    destruct (sensor_script w) as [|r rs] eqn:E; [congruence|].
    cbn [pop_sensor sensor_script tl] in Hl. rewrite E in Hl.
    simpl in Hl |- *. lia.
Qed.

Lemma report_cycle_Done (zones : list Z) (w w' : world) :
  report_cycle zones w = (Done tt, w') ->
  List.length (sensor_script w) =
    (List.length zones + List.length (sensor_script w'))%nat.
Proof.
  unfold report_cycle, hottest. intros H.
  apply bind_Done in H. destruct H as (t & w1 & H1 & H2).
  apply bind_Done in H2. destruct H2 as ([] & w2 & H2 & H3).
  injection H3 as <-.
  destruct (hottest_from_Done zones (PInt 0) w w1 t (or_introl eq_refl) H1)
    as (_ & Hl & _).
  pose proof (send_soc_temp_sensors t w1) as K. rewrite H2 in K.
  unfold same_sensors in K. cbn [snd] in K. rewrite K. exact Hl.
Qed.

Lemma completed_cycles_consume (zones : list Z) (j : nat) :
  forall w wj : world,
  completed_cycles j zones w = (Done tt, wj) ->
  List.length (sensor_script w) =
    (j * List.length zones + List.length (sensor_script wj))%nat.
Proof.
  induction j as [|j IH]; intros w wj H; cbn [completed_cycles] in H.
  - injection H as <-. reflexivity.
  - apply bind_Done in H. destruct H as ([] & w1 & H1 & H2).
    rewrite (report_cycle_Done zones w w1 H1), (IH w1 wj H2). simpl. lia.
Qed.

(** C3 (amended): in [temperature_report_loop] a failed sensor read is
    not caught.  After any number of completed turns, a turn in which
    one of the reads fails raises, no temperature is sent in that
    turn, and the loop ends with the exception. *)
Theorem temperature_report_loop_failed_read (names : list string)
    (fds : list Z) (j : nat) (w wj : world)
    (good : list string) (tail : list pread_reply) :
  open_thermal_zones names w = (Done fds, w) ->
  completed_cycles j fds w = (Done tt, wj) ->
  sensor_script wj = map PreadBytes good ++ PreadError :: tail ->
  (List.length good < List.length fds)%nat ->
  exists e w',
    temperature_report_loop names w = (Raised e, w') /\
    bus_log w' = bus_log wj.
Proof.
  intros Ho Hc Hs Hl.
  unfold temperature_report_loop. rewrite (bind_Done_l _ _ w w fds Ho).
  destruct fds as [|fd rest] eqn:Ef; [simpl in Hl; lia|]. rewrite <- Ef in *.
  apply (report_cycles_failed_read fds good tail j _ w wj Hc Hs Hl).
  pose proof (completed_cycles_consume fds j w wj Hc) as K.
  assert (1 <= List.length fds)%nat by (rewrite Ef; simpl; lia).
  nia.
Qed.

Lemma temperature_report_loop_failed_read_witness :
  exists e w',
    temperature_report_loop THERMAL_ZONES
      (scripted [("thermal_zone0", "cpu0-0-top-thermal");
                 ("thermal_zone1", "gpuss-0-thermal")]%string
         [BusData []; BusData []]
         [PreadBytes "42300"; PreadBytes "45000";
          PreadBytes "43000"; PreadError; PreadBytes "44000"])
    = (Raised e, w') /\
    bus_log w' = [soc_temp_transfer 0xC2 0x01].
Proof.
  set (w := scripted [("thermal_zone0", "cpu0-0-top-thermal");
                      ("thermal_zone1", "gpuss-0-thermal")]%string
              [BusData []; BusData []]
              [PreadBytes "42300"; PreadBytes "45000";
               PreadBytes "43000"; PreadError; PreadBytes "44000"]).
  assert (H1 : open_thermal_zones THERMAL_ZONES w = (Done [0; 1], w))
    by (vm_compute; reflexivity).
  assert (H2 : completed_cycles 1 [0; 1] w =
               (Done tt, snd (completed_cycles 1 [0; 1] w)))
    by (vm_compute; reflexivity).
  assert (H3 : sensor_script (snd (completed_cycles 1 [0; 1] w)) =
               map PreadBytes ["43000"%string] ++ PreadError :: [PreadBytes "44000"])
    by (vm_compute; reflexivity).
  assert (H4 : (List.length ["43000"%string] < List.length [0; 1])%nat)
    by (simpl; lia).
  destruct (temperature_report_loop_failed_read THERMAL_ZONES [0; 1] 1 w _ _ _
              H1 H2 H3 H4) as (e & w' & H & L).
  exists e, w'. split; [exact H | rewrite L; vm_compute; reflexivity].
Defined.

(** C3 as stated fails: with one zone whose first read fails, the loop
    raises [OSError]; no zero is reported and the next sample is never
    read. *)
Lemma temperature_report_loop_read_error :
  let w := scripted [("thermal_zone0", "cpu0-0-top-thermal")]%string
             [BusData []; BusData []]
             [PreadError; PreadBytes "45000"] in
  fst (temperature_report_loop THERMAL_ZONES w) = Raised OSError /\
  bus_log (snd (temperature_report_loop THERMAL_ZONES w)) = [] /\
  sensor_script (snd (temperature_report_loop THERMAL_ZONES w)) =
    [PreadBytes "45000"].
Proof. vm_compute. auto. Qed.

(** ** [main] *)







(** ** The indexed protocol in the log *)









(** ** [measure_fan_model] *)




(** ** Constants and comparisons on the reals *)

Lemma F2R_exact_int (z m e : Z) : e <= 0 -> m = z * 2 ^ (- e) -> F2R m e = IZR z.
Proof.
  intros He ->. rewrite F2R_scale by lia.
  replace (e + - e) with 0 by lia. apply F2R_int.
Qed.

Lemma F2R_half : F2R 1 (-1) = (1 / 2)%R.
Proof. unfold F2R. simpl. lra. Qed.

Lemma F2R_1_972_big : (256 <= F2R 1 972)%R.
Proof.
  replace 256%R with (F2R 1 8).
  - apply F2R_pow_mono; lia.
  - unfold F2R. simpl. lra.
Qed.

Lemma representable_int (z : Z) : 0 < z < 2 ^ 53 -> representable (IZR z).
Proof. intros H. exists z, 0. rewrite F2R_int. repeat split; lia. Qed.

Lemma representable_half_odd (z : Z) :
  0 < z < 2 ^ 53 -> representable (IZR z / 2)%R.
Proof.
  intros H. exists z, (-1). repeat split; try lia.
  unfold F2R. simpl. lra.
Qed.

Lemma fval_of_Z (z : Z) (m : positive) (e : Z) :
  of_Z z = S754_finite false m e -> e <= 0 -> Zpos m = z * 2 ^ (- e) ->
  fval (of_Z z) = IZR z.
Proof.
  intros -> He Hm. rewrite fval_finite. cbn [cond_Zopp].
  apply F2R_exact_int; assumption.
Qed.

Lemma fval_40 : fval (of_Z 40) = 40%R.
Proof. apply (fval_of_Z 40 5629499534213120 (-47)); [vm_compute; reflexivity | lia | reflexivity]. Qed.

Lemma fval_55 : fval (of_Z 55) = 55%R.
Proof. apply (fval_of_Z 55 7740561859543040 (-47)); [vm_compute; reflexivity | lia | reflexivity]. Qed.

Lemma fval_30 : fval (of_Z 30) = 30%R.
Proof. apply (fval_of_Z 30 8444249301319680 (-48)); [vm_compute; reflexivity | lia | reflexivity]. Qed.

Lemma fval_255 : fval (of_Z 255) = 255%R.
Proof. apply (fval_of_Z 255 8972014882652160 (-45)); [vm_compute; reflexivity | lia | reflexivity]. Qed.

Lemma fval_one : fval Effects.one = 1%R.
Proof.
  change Effects.one with (S754_finite false 4503599627370496 (-52)).
  rewrite fval_finite. apply (F2R_exact_int 1); [lia | reflexivity].
Qed.

Lemma fval_half : fval Effects.half = (1 / 2)%R.
Proof.
  change Effects.half with (S754_finite false 4503599627370496 (-53)).
  rewrite fval_finite. cbn [cond_Zopp].
  change 4503599627370496 with (1 * 2 ^ 52). rewrite F2R_scale by lia.
  exact F2R_half.
Qed.

(** Comparisons of an int with a float that is not NaN. *)
Lemma py_gt_int_float (z : Z) (y : float) :
  is_finite y = true ->
  py_gt (PInt z) (PFloat y) = true <-> (fval y < IZR z)%R.
Proof.
  intros Hy. unfold py_gt, py_compare. cbn [xval_of].
  destruct y as [s|s| |s m e]; try discriminate; cbn [xval_of_float];
    rewrite xcompare_fin; unfold fval; cbn [xval_of_float xreal];
    rewrite ?F2R_int, ?F2R_0;
    repeat (destruct (Rlt_dec _ _)); split; intros H; try discriminate;
    try reflexivity; try lra.
Qed.

Lemma py_lt_int_float (z : Z) (y : float) :
  is_finite y = true ->
  py_lt (PInt z) (PFloat y) = true <-> (IZR z < fval y)%R.
Proof.
  intros Hy. unfold py_lt, py_compare. cbn [xval_of].
  destruct y as [s|s| |s m e]; try discriminate; cbn [xval_of_float];
    rewrite xcompare_fin; unfold fval; cbn [xval_of_float xreal];
    rewrite ?F2R_int, ?F2R_0;
    repeat (destruct (Rlt_dec _ _)); split; intros H; try discriminate;
    try reflexivity; try lra.
Qed.

Lemma py_le_float_int (y : float) (z : Z) :
  is_finite y = true ->
  py_le (PFloat y) (PInt z) = true <-> (fval y <= IZR z)%R.
Proof.
  intros Hy. unfold py_le, py_compare. cbn [xval_of].
  destruct y as [s|s| |s m e]; try discriminate; cbn [xval_of_float];
    rewrite xcompare_fin; unfold fval; cbn [xval_of_float xreal];
    rewrite ?F2R_int, ?F2R_0;
    repeat (destruct (Rlt_dec _ _)); split; intros H; try discriminate;
    try reflexivity; try lra.
Qed.

Lemma py_ge_float_int (y : float) (z : Z) :
  is_finite y = true ->
  py_ge (PFloat y) (PInt z) = true <-> (IZR z <= fval y)%R.
Proof.
  intros Hy. unfold py_ge, py_compare. cbn [xval_of].
  destruct y as [s|s| |s m e]; try discriminate; cbn [xval_of_float];
    rewrite xcompare_fin; unfold fval; cbn [xval_of_float xreal];
    rewrite ?F2R_int, ?F2R_0;
    repeat (destruct (Rlt_dec _ _)); split; intros H; try discriminate;
    try reflexivity; try lra.
Qed.

(** ** The ramps of the fire effect *)

(** [min(max(y, 0), 1)] for a float that is not NaN. *)
Lemma clamp01_cases (y : float) :
  is_nan y = false ->
  let frac := py_min (py_max (PFloat y) (PInt 0)) (PInt 1) in
  unit_value frac /\
  (nonpos y -> zero_value frac) /\
  (at_least 1 (xval_of_float y) -> one_value frac).
Proof.
  intros Hn frac. subst frac. destruct y as [s|[|]| |s m e]; try discriminate.
  - (* zero *)
    change (py_min (py_max (PFloat (S754_zero s)) (PInt 0)) (PInt 1))
      with (PFloat (S754_zero s)).
    split; [|split].
    + right. right. exists (S754_zero s). rewrite fval_zero.
      repeat split; lra.
    + intros _. right. eauto.
    + simpl. rewrite F2R_0. intros H. exfalso. lra.
  - (* minus infinity *)
    change (py_min (py_max (PFloat (S754_infinity true)) (PInt 0)) (PInt 1))
      with (PInt 0).
    split; [left; reflexivity|]. split; [intros _; left; reflexivity|].
    simpl. discriminate.
  - (* plus infinity *)
    change (py_min (py_max (PFloat (S754_infinity false)) (PInt 0)) (PInt 1))
      with (PInt 1).
    split; [right; left; reflexivity|]. split; [contradiction|].
    intros _. left. reflexivity.
  - (* finite *)
    set (y := S754_finite s m e).
    assert (Fy : is_finite y = true) by reflexivity.
    unfold py_max.
    destruct (py_gt (PInt 0) (PFloat y)) eqn:Eg.
    + apply (py_gt_int_float 0 y Fy) in Eg.
      change (py_min (PInt 0) (PInt 1)) with (PInt 0).
      split; [left; reflexivity|]. split; [intros _; left; reflexivity|].
      intros H. exfalso. change (1 <= fval y)%R in H. lra.
    + assert (G : ~ (fval y < 0)%R).
      { intros C. apply (py_gt_int_float 0 y Fy) in C. congruence. }
      unfold py_min.
      destruct (py_lt (PInt 1) (PFloat y)) eqn:El.
      * split; [right; left; reflexivity|]. split; [|intros _; left; reflexivity].
        intros Hp. exfalso. subst y. destruct s; [|contradiction].
        pose proof (fval_sign_true m e). lra.
      * assert (L : ~ (1 < fval y)%R).
        { intros C. apply (py_lt_int_float 1 y Fy) in C. congruence. }
        assert (Hs : nonneg_finite y).
        { subst y. destruct s; [|exact I].
          pose proof (fval_sign_true m e). lra. }
        split; [|split].
        -- right. right. exists y. repeat split; try assumption; lra.
        -- intros Hp. exfalso. subst y. destruct s; [|contradiction].
           pose proof (fval_sign_true m e). lra.
        -- intros H. change (1 <= fval y)%R in H. right. exists y.
           repeat split; try assumption; lra.
Qed.

Lemma at_least_nonneg (c : R) (x : float) :
  (0 < c)%R -> at_least c (xval_of_float x) -> nonneg x.
Proof.
  intros Hc H. destruct x as [s|s| |s m e]; simpl in *; try contradiction.
  - exact I.
  - subst. exact I.
  - destruct s; [|exact I]. simpl in H.
    pose proof (fval_sign_true m e) as F. rewrite fval_finite in F. simpl in F. lra.
Qed.

(** The ramp [min(max((temp - base) / 30, 0), 1)] at a finite float. *)
Lemma ramp_float (t cb : float) (base : Z) :
  is_finite t = true ->
  to_float (PInt base) = Ok cb -> is_finite cb = true -> fval cb = IZR base ->
  exists frac,
    Effects.ramp (PFloat t) base = Ok frac /\
    unit_value frac /\
    ((fval t <= IZR base)%R -> zero_value frac) /\
    ((IZR base + 30 <= fval t)%R -> one_value frac).
Proof.
  intros Ft Hcb Fcb Vcb.
  assert (E1 : py_sub (PFloat t) (PInt base) = Ok (PFloat (sub t cb))).
  { unfold py_sub, py_arith. rewrite Hcb. reflexivity. }
  assert (T30 : to_float (PInt 30) = Ok (of_Z 30)) by (vm_compute; reflexivity).
  assert (Q30 : py_eq (PFloat (of_Z 30)) (PInt 0) = false)
    by (vm_compute; reflexivity).
  assert (E2 : py_truediv (PFloat (sub t cb)) (PInt Effects.temp_range) =
               Ok (PFloat (fdiv (sub t cb) (of_Z 30)))).
  { unfold py_truediv. change Effects.temp_range with 30. rewrite T30.
    cbn [to_float rbind]. rewrite Q30. reflexivity. }
  unfold Effects.ramp. rewrite E1. cbn [rbind]. rewrite E2. cbn [rbind].
  set (x := sub t cb). set (y := fdiv x (of_Z 30)).
  assert (C30 : exists my ey, of_Z 30 = S754_finite false my ey)
    by (exists 8444249301319680%positive, (-48); vm_compute; reflexivity).
  assert (Nx : is_nan x = false) by (apply sub_not_nan; assumption).
  assert (Ny : is_nan y = false) by (apply div_not_nan; assumption).
  destruct (clamp01_cases y Ny) as (U & Z0 & O1).
  eexists. split; [reflexivity|]. split; [exact U|]. split.
  - intros Hle. apply Z0. apply div_nonpos; [|assumption].
    apply sub_nonpos; try assumption. rewrite Vcb. lra.
  - intros Hge. apply O1.
    assert (A30 : at_least 30 (xval_of_float x)).
    { apply sub_at_least; try assumption.
      - apply (representable_int 30). lia.
      - rewrite Vcb. lra. }
    apply div_at_least; try assumption.
    + apply (at_least_nonneg 30); [lra | assumption].
    + apply (representable_int 1). lia.
    + rewrite fval_30. replace (1 * 30)%R with 30%R by lra. exact A30.
Qed.

(** ** The three channels *)

Lemma nonneg_finite_zero_value (x : float) :
  nonneg_finite x -> fval x = 0%R -> exists s, x = S754_zero s.
Proof.
  destruct x as [s|s| |[|] m e]; try contradiction; intros _ H; [eauto|].
  pose proof (fval_sign_false m e). lra.
Qed.

Lemma c255_shape : nonneg_finite (of_Z 255).
Proof. vm_compute. exact I. Qed.

Lemma one_shape : nonneg_finite Effects.one.
Proof. vm_compute. exact I. Qed.

Lemma half_shape : nonneg_finite Effects.half.
Proof. vm_compute. exact I. Qed.

Lemma mul_zero_l (s : bool) (y : float) :
  nonneg_finite y -> exists s', mul (S754_zero s) y = S754_zero s'.
Proof.
  destruct y as [sy|sy| |[|] m e]; try contradiction; intros _; eexists; reflexivity.
Qed.

Lemma py_mul_float_int (x : float) (z : Z) (c : float) :
  to_float (PInt z) = Ok c ->
  py_mul (PFloat x) (PInt z) = Ok (PFloat (mul x c)).
Proof. intros H. unfold py_mul, py_arith. rewrite H. reflexivity. Qed.

Lemma to_float_255 : to_float (PInt 255) = Ok (of_Z 255).
Proof. vm_compute. reflexivity. Qed.

(** [round(x * 255)] for a float from 0 to 1. *)
Lemma to_byte_float (x : float) :
  nonneg_finite x -> (fval x <= 1)%R ->
  exists n, Effects.to_byte (PFloat x) = Ok n /\ 0 <= n <= 255 /\
            (fval x = 0%R -> n = 0) /\ (fval x = 1%R -> n = 255).
Proof.
  intros Hx Hle. unfold Effects.to_byte.
  rewrite (py_mul_float_int x 255 _ to_float_255). cbn [rbind py_round].
  pose proof (fval_nonneg x Hx) as H0.
  destruct (mul_at_most x (of_Z 255) 255 Hx c255_shape
              (representable_int 255 ltac:(lia))
              ltac:(pose proof F2R_1_972_big; lra)
              ltac:(rewrite fval_255; nra)) as [Fm Lm].
  destruct (round_nonneg_le (mul x (of_Z 255)) 255 Fm Lm) as (n & Hn & Bn).
  exists n. split; [exact Hn|]. split; [exact Bn|]. split.
  - intros Hz. destruct (nonneg_finite_zero_value x Hx Hz) as [s ->].
    destruct (mul_zero_l s (of_Z 255) c255_shape) as [s' E].
    rewrite E in Hn. injection Hn as <-. reflexivity.
  - intros H1.
    destruct (mul_exact x (of_Z 255) 255 Hx c255_shape
                (representable_int 255 ltac:(lia))
                ltac:(pose proof F2R_1_972_big; lra)
                ltac:(rewrite fval_255, H1; lra)) as [_ Em].
    rewrite (round_exact _ 255 Fm Em) in Hn. injection Hn as <-. reflexivity.
Qed.

(** [round(g * 255)] for a float from 0 to one half. *)
Lemma to_byte_half (g : float) :
  nonneg_finite g -> (fval g <= 1 / 2)%R ->
  exists n, Effects.to_byte (PFloat g) = Ok n /\ 0 <= n <= 128 /\
            (fval g = 0%R -> n = 0) /\ (fval g = (1 / 2)%R -> n = 128).
Proof.
  intros Hg Hle. unfold Effects.to_byte.
  rewrite (py_mul_float_int g 255 _ to_float_255). cbn [rbind py_round].
  pose proof (fval_nonneg g Hg) as H0.
  destruct (mul_at_most g (of_Z 255) (255 / 2) Hg c255_shape
              (representable_half_odd 255 ltac:(lia))
              ltac:(pose proof F2R_1_972_big; lra)
              ltac:(rewrite fval_255; nra)) as [Fm Lm].
  destruct (round_nonneg_le (mul g (of_Z 255)) 128 Fm ltac:(lra)) as (n & Hn & Bn).
  exists n. split; [exact Hn|]. split; [exact Bn|]. split.
  - intros Hz. destruct (nonneg_finite_zero_value g Hg Hz) as [s ->].
    destruct (mul_zero_l s (of_Z 255) c255_shape) as [s' E].
    rewrite E in Hn. injection Hn as <-. reflexivity.
  - intros H1.
    destruct (mul_exact g (of_Z 255) (255 / 2) Hg c255_shape
                (representable_half_odd 255 ltac:(lia))
                ltac:(pose proof F2R_1_972_big; lra)
                ltac:(rewrite fval_255, H1; lra)) as [_ Em].
    rewrite (round_tie _ 127 Fm ltac:(rewrite Em; simpl; lra)) in Hn.
    injection Hn as <-. reflexivity.
Qed.

(** [r = frac * 1.0] *)
Lemma red_of_frac (frac : pynum) :
  unit_value frac ->
  exists rf, py_mul frac (PFloat Effects.one) = Ok (PFloat rf) /\
             nonneg_finite rf /\ (fval rf <= 1)%R /\
             (zero_value frac -> fval rf = 0%R) /\
             (one_value frac -> fval rf = 1%R).
Proof.
  intros [-> | [-> | (y & -> & Hy & Ly)]].
  - exists (S754_zero false). split; [vm_compute; reflexivity|].
    split; [exact I|]. rewrite fval_zero. split; [lra|]. split; [reflexivity|].
    intros [H | (y & H & _)]; discriminate.
  - exists Effects.one. split; [vm_compute; reflexivity|].
    split; [exact one_shape|]. rewrite fval_one. split; [lra|].
    split; [|reflexivity]. intros [H | (s & H)]; discriminate.
  - exists (mul y Effects.one). split; [reflexivity|].
    pose proof (fval_nonneg y Hy) as H0.
    destruct (mul_at_most y Effects.one 1 Hy one_shape
                (representable_int 1 ltac:(lia))
                ltac:(pose proof F2R_1_972_big; lra)
                ltac:(rewrite fval_one; lra)) as [Fm Lm].
    split; [exact Fm|]. split; [exact Lm|]. split.
    + intros [H | (s & H)]; [discriminate|]. injection H as ->.
      destruct (mul_zero_l s Effects.one one_shape) as [s' ->]. apply fval_zero.
    + intros [H | (y' & H & _ & V)]; [discriminate|]. injection H as <-.
      apply (mul_exact y Effects.one 1 Hy one_shape
               (representable_int 1 ltac:(lia))
               ltac:(pose proof F2R_1_972_big; lra)
               ltac:(rewrite fval_one, V; lra)).
Qed.

(** [g = frac * frac * 0.5] *)
Lemma green_of_frac (frac : pynum) :
  unit_value frac ->
  exists gf,
    rbind (py_mul frac frac) (fun ff => py_mul ff (PFloat Effects.half))
      = Ok (PFloat gf) /\
    nonneg_finite gf /\ (fval gf <= 1 / 2)%R /\
    (zero_value frac -> fval gf = 0%R) /\
    (one_value frac -> fval gf = (1 / 2)%R).
Proof.
  intros [-> | [-> | (y & -> & Hy & Ly)]].
  - exists (S754_zero false). split; [vm_compute; reflexivity|].
    split; [exact I|]. rewrite fval_zero. split; [lra|]. split; [reflexivity|].
    intros [H | (y & H & _)]; discriminate.
  - exists Effects.half. split; [vm_compute; reflexivity|].
    split; [exact half_shape|]. rewrite fval_half. split; [lra|].
    split; [|reflexivity]. intros [H | (s & H)]; discriminate.
  - exists (mul (mul y y) Effects.half). split; [reflexivity|].
    pose proof (fval_nonneg y Hy) as H0.
    destruct (mul_at_most y y 1 Hy Hy (representable_int 1 ltac:(lia))
                ltac:(pose proof F2R_1_972_big; lra) ltac:(nra)) as [Ff Lf].
    pose proof (fval_nonneg _ Ff) as H1.
    destruct (mul_at_most (mul y y) Effects.half (1 / 2) Ff half_shape
                (representable_half_odd 1 ltac:(lia))
                ltac:(pose proof F2R_1_972_big; lra)
                ltac:(rewrite fval_half; lra)) as [Fm Lm].
    split; [exact Fm|]. split; [exact Lm|]. split.
    + intros [H | (s & H)]; [discriminate|]. injection H as ->.
      destruct (mul_zero_l s (S754_zero s) I) as [s' ->].
      destruct (mul_zero_l s' Effects.half half_shape) as [s'' ->].
      apply fval_zero.
    + intros [H | (y' & H & _ & V)]; [discriminate|]. injection H as <-.
      destruct (mul_exact y y 1 Hy Hy (representable_int 1 ltac:(lia))
                  ltac:(pose proof F2R_1_972_big; lra)
                  ltac:(rewrite V; lra)) as [_ E1].
      apply (mul_exact (mul y y) Effects.half (1 / 2) Ff half_shape
               (representable_half_odd 1 ltac:(lia))
               ltac:(pose proof F2R_1_972_big; lra)
               ltac:(rewrite fval_half, E1; lra)).
Qed.

(** [round(b * 255)] with [b = frac2] *)
Lemma blue_of_frac (frac : pynum) :
  unit_value frac ->
  exists n, Effects.to_byte frac = Ok n /\ 0 <= n <= 255 /\
            (zero_value frac -> n = 0) /\ (one_value frac -> n = 255).
Proof.
  intros [-> | [-> | (y & -> & Hy & Ly)]].
  - exists 0. split; [reflexivity|]. split; [lia|]. split; [reflexivity|].
    intros [H | (y & H & _)]; discriminate.
  - exists 255. split; [reflexivity|]. split; [lia|]. split; [|reflexivity].
    intros [H | (s & H)]; discriminate.
  - destruct (to_byte_float y Hy Ly) as (n & Hn & Bn & Z0 & O1).
    exists n. split; [exact Hn|]. split; [exact Bn|]. split.
    + intros [H | (s & H)]; [discriminate|]. injection H as ->.
      apply Z0. apply fval_zero.
    + intros [H | (y' & H & _ & V)]; [discriminate|]. injection H as <-.
      apply O1. exact V.
Qed.

Lemma to_float_40 : to_float (PInt 40) = Ok (of_Z 40).
Proof. vm_compute. reflexivity. Qed.

Lemma to_float_55 : to_float (PInt 55) = Ok (of_Z 55).
Proof. vm_compute. reflexivity. Qed.

(** The two ramps of a sampled temperature. *)
Lemma ramp_sampled (temp : pynum) (base : Z) :
  sampled temp -> base = 40 \/ base = 55 ->
  exists frac,
    Effects.ramp temp base = Ok frac /\ unit_value frac /\
    (py_le temp (PInt base) = true -> zero_value frac) /\
    (py_ge temp (PInt (base + 30)) = true -> one_value frac).
Proof.
  intros [-> | (t & -> & Ft)] Hb.
  - exists (PInt 0). split; [destruct Hb as [-> | ->]; vm_compute; reflexivity|].
    split; [left; reflexivity|]. split; [intros _; left; reflexivity|].
    intros H. exfalso. destruct Hb as [-> | ->]; vm_compute in H; discriminate.
  - assert (C : exists cb, to_float (PInt base) = Ok cb /\
                           is_finite cb = true /\ fval cb = IZR base).
    { destruct Hb as [-> | ->]; eexists; split; try reflexivity;
        (split; [reflexivity|]); [exact fval_40 | exact fval_55]. }
    destruct C as (cb & Tb & Fb & Vb).
    destruct (ramp_float t cb base Ft Tb Fb Vb) as (frac & E & U & Z0 & O1).
    exists frac. split; [exact E|]. split; [exact U|]. split.
    + intros H. apply Z0. apply (py_le_float_int t base Ft). exact H.
    + intros H. apply O1. apply (py_ge_float_int t (base + 30) Ft) in H.
      rewrite plus_IZR in H. exact H.
Qed.

(** C2 (as the code has it).  For a sampled temperature
    [fire_colour] gives a triple of bytes with green at most 128; at 40
    degrees or less the triple is (0, 0, 0); from 70 degrees red is 255
    and green is 128; blue is 0 up to 55 degrees and 255 from 85. *)
Theorem fire_colour_thresholds (temp : pynum) :
  sampled temp ->
  exists r g b,
    Effects.fire_colour temp = Ok [r; g; b] /\
    0 <= r <= 255 /\ 0 <= g <= 128 /\ 0 <= b <= 255 /\
    (py_le temp (PInt 40) = true -> r = 0 /\ g = 0 /\ b = 0) /\
    (py_ge temp (PInt 70) = true -> r = 255 /\ g = 128) /\
    (py_le temp (PInt 55) = true -> b = 0) /\
    (py_ge temp (PInt 85) = true -> b = 255).
Proof.
  intros Hs.
  destruct (ramp_sampled temp 40 Hs ltac:(left; reflexivity))
    as (frac & E1 & U1 & Z1 & O1).
  destruct (ramp_sampled temp 55 Hs ltac:(right; reflexivity))
    as (frac2 & E2 & U2 & Z2 & O2).
  destruct (red_of_frac frac U1) as (rf & Er & Fr & Lr & Zr & Or).
  destruct (green_of_frac frac U1) as (gf & Eg & Fg & Lg & Zg & Og).
  destruct (to_byte_float rf Fr Lr) as (r & Hr & Br & Zr' & Or').
  destruct (to_byte_half gf Fg Lg) as (g & Hg & Bg & Zg' & Og').
  destruct (blue_of_frac frac2 U2) as (b & Hb & Bb & Zb & Ob).
  exists r, g, b. split.
  - unfold Effects.fire_colour, Effects.min_temp, Effects.blue_temp.
    rewrite E1. cbn [rbind]. rewrite E2. cbn [rbind].
    rewrite Er. cbn [rbind].
    destruct (py_mul frac frac) as [ff|e] eqn:Eff; cbn [rbind] in Eg |- *;
      [|discriminate].
    rewrite Eg. cbn [rbind]. rewrite Hr. cbn [rbind]. rewrite Hg. cbn [rbind].
    rewrite Hb. reflexivity.
  - split; [exact Br|]. split; [exact Bg|]. split; [exact Bb|].
    assert (L : py_le temp (PInt 40) = true -> py_le temp (PInt 55) = true).
    { destruct Hs as [-> | (t & -> & Ft)]; [intros _; reflexivity|].
      intros H. apply (py_le_float_int t 40 Ft) in H.
      apply (py_le_float_int t 55 Ft). lra. }
    split; [|split; [|split]].
    + intros H. split; [apply Zr', Zr, Z1, H|].
      split; [apply Zg', Zg, Z1, H | apply Zb, Z2, L, H].
    + intros H. split; [apply Or', Or, O1, H | apply Og', Og, O1, H].
    + intros H. apply Zb, Z2, H.
    + intros H. apply Ob, O2, H.
Qed.

Lemma fire_colour_thresholds_witness :
  sampled (PFloat (of_Z 72)) /\
  exists r g b,
    Effects.fire_colour (PFloat (of_Z 72)) = Ok [r; g; b] /\
    0 <= r <= 255 /\ 0 <= g <= 128 /\ 0 <= b <= 255 /\
    (py_le (PFloat (of_Z 72)) (PInt 40) = true -> r = 0 /\ g = 0 /\ b = 0) /\
    (py_ge (PFloat (of_Z 72)) (PInt 70) = true -> r = 255 /\ g = 128) /\
    (py_le (PFloat (of_Z 72)) (PInt 55) = true -> b = 0) /\
    (py_ge (PFloat (of_Z 72)) (PInt 85) = true -> b = 255).
Proof.
  assert (H : sampled (PFloat (of_Z 72))).
  { right. exists (of_Z 72). split; [reflexivity | vm_compute; reflexivity]. }
  split; [exact H | exact (fire_colour_thresholds (PFloat (of_Z 72)) H)].
Defined.

(** At 70.0 degrees (at least 70, so the claim has green at 255) the
    green channel is 128. *)
Lemma fire_colour_green_half :
  py_ge (PFloat (of_Z 70)) (PInt 70) = true /\
  Effects.fire_colour (PFloat (of_Z 70)) = Ok [255; 128; 128].
Proof. split; vm_compute; reflexivity. Qed.

(** ** The fire loop *)

Lemma bind_Unfinished_l {A B : Type} (m : M A) (k : A -> M B) (w w' : world) :
  m w = (Unfinished, w') -> bind m k w = (Unfinished, w').
Proof. intros H. unfold bind. rewrite H. reflexivity. Qed.

(** A sample of a file that answers is the value of its content. *)
Lemma read_celsius_script (fd : Z) (w : world) (s : string)
    (rest : list pread_reply) :
  sensor_script w = PreadBytes s :: rest ->
  read_celsius fd w = lift (celsius_of s) (pop_sensor w).
Proof.
  intros E. unfold read_celsius, celsius_of.
  assert (P : os_pread fd 20 w = (Done (firstn 20 (PyStr.chars s)), pop_sensor w))
    by (unfold os_pread; rewrite E; reflexivity).
  rewrite (bind_Done_l _ _ _ _ _ P).
  destruct (PyStr.int_of (firstn 20 (PyStr.chars s))) as [z|e]; reflexivity.
Qed.

(** The sampling lines on a script that begins with the files of one
    turn. *)
Lemma hottest_from_script (fds : list Z) :
  forall (files : list string) (temp t : pynum) (w : world)
         (rest : list pread_reply),
  List.length files = List.length fds ->
  sensor_script w = map PreadBytes files ++ rest ->
  hottest_of temp files = Ok t ->
  exists w1, hottest_from temp fds w = (Done t, w1) /\
             sensor_script w1 = rest /\
             bus_log w1 = bus_log w /\ bus_script w1 = bus_script w.
Proof.
  induction fds as [|fd fds IH]; intros [|s files] temp t w rest Hl Es Eh;
    try discriminate.
  - injection Eh as <-. exists w. auto.
  - cbn [hottest_of] in Eh. destruct (celsius_of s) as [c|e] eqn:Ec;
      [|discriminate]. cbn [rbind] in Eh.
    cbn [map app] in Es.
    pose proof (read_celsius_script fd w s _ Es) as R. rewrite Ec in R.
    destruct (IH files (py_max temp c) t (pop_sensor w) rest)
      as (w1 & H1 & S1 & L1 & B1).
    + simpl in Hl. lia.
    + cbn [pop_sensor sensor_script]. rewrite Es. reflexivity.
    + exact Eh.
    + exists w1. cbn [hottest_from]. rewrite (bind_Done_l _ _ _ _ _ R).
      auto.
Qed.

Lemma hottest_from_exhausted (fds : list Z) (temp : pynum) (w : world) :
  fds <> [] -> sensor_script w = [] ->
  hottest_from temp fds w = (Unfinished, w).
Proof.
  intros Hne Es. destruct fds as [|fd fds]; [congruence|].
  cbn [hottest_from]. apply bind_Unfinished_l.
  unfold read_celsius. apply bind_Unfinished_l.
  unfold os_pread. rewrite Es. reflexivity.
Qed.

(** Every channel of the triple of a sampled temperature is a byte. *)
Lemma fire_colour_bytes (temp : pynum) :
  sampled temp ->
  exists r g b, Effects.fire_colour temp = Ok [r; g; b] /\
                0 <= r <= 255 /\ 0 <= g <= 255 /\ 0 <= b <= 255.
Proof.
  intros Hs.
  destruct (ramp_sampled temp 40 Hs ltac:(left; reflexivity))
    as (frac & E1 & U1 & _).
  destruct (ramp_sampled temp 55 Hs ltac:(right; reflexivity))
    as (frac2 & E2 & U2 & _).
  destruct (red_of_frac frac U1) as (rf & Er & Fr & Lr & _).
  destruct (green_of_frac frac U1) as (gf & Eg & Fg & Lg & _).
  destruct (to_byte_float rf Fr Lr) as (r & Hr & Br & _).
  destruct (to_byte_half gf Fg Lg) as (g & Hg & Bg & _).
  destruct (blue_of_frac frac2 U2) as (b & Hb & Bb & _).
  exists r, g, b. split; [|split; [exact Br | split; [lia | exact Bb]]].
  unfold Effects.fire_colour, Effects.min_temp, Effects.blue_temp.
  rewrite E1. cbn [rbind]. rewrite E2. cbn [rbind].
  rewrite Er. cbn [rbind].
  destruct (py_mul frac frac) as [ff|e] eqn:Eff; cbn [rbind] in Eg |- *;
    [|discriminate].
  rewrite Eg. cbn [rbind]. rewrite Hr. cbn [rbind]. rewrite Hg. cbn [rbind].
  rewrite Hb. reflexivity.
Qed.

(** [set_keyboard_backlight] on a bus that answers. *)
Lemma set_keyboard_backlight_sent (r g b : Z) (w : world) (p : list Z)
    (ps : list bus_reply) :
  0 <= r <= 255 -> 0 <= g <= 255 -> 0 <= b <= 255 ->
  bus_script w = BusData p :: ps ->
  set_keyboard_backlight r g b w =
  (Done tt, log_transfer (backlight_write [r; g; b]) w).
Proof.
  intros Hr Hg Hb E.
  unfold set_keyboard_backlight, set_keyboard_backlight_with, BACKLIGHT_SOLID.
  cbn [repeat app].
  rewrite Request_write_ok by (repeat constructor; lia).
  unfold lift. unfold bind at 1. unfold ret at 1.
  unfold bind, Request_send. cbn [msgs]. rewrite E. reflexivity.
Qed.

(** A turn whose triple is the current one writes nothing. *)
Lemma fire_cycle_same (fds : list Z) (cur : list Z) (temp : pynum)
    (w w1 : world) :
  hottest fds w = (Done temp, w1) ->
  Effects.fire_colour temp = Ok cur ->
  Effects.fire_cycle fds cur w = (Done cur, w1).
Proof.
  intros Hh Ec. unfold Effects.fire_cycle.
  rewrite (bind_Done_l _ _ _ _ _ Hh). rewrite Ec.
  unfold lift. unfold bind at 1. unfold ret at 1.
  unfold Effects.colour_eqb.
  destruct (list_eq_dec Z.eq_dec cur cur) as [_|N]; [reflexivity | congruence].
Qed.

(** A turn whose triple is another one writes it and keeps it. *)
Lemma fire_cycle_changed (fds : list Z) (cur : list Z) (temp : pynum)
    (r g b : Z) (w w1 : world) (p : list Z) (ps : list bus_reply) :
  hottest fds w = (Done temp, w1) ->
  Effects.fire_colour temp = Ok [r; g; b] ->
  [r; g; b] <> cur ->
  0 <= r <= 255 -> 0 <= g <= 255 -> 0 <= b <= 255 ->
  bus_script w1 = BusData p :: ps ->
  Effects.fire_cycle fds cur w =
  (Done [r; g; b], log_transfer (backlight_write [r; g; b]) w1).
Proof.
  intros Hh Ec Hd Hr Hg Hb E. unfold Effects.fire_cycle.
  rewrite (bind_Done_l _ _ _ _ _ Hh). rewrite Ec.
  unfold lift. unfold bind at 1. unfold ret at 1.
  unfold Effects.colour_eqb.
  destruct (list_eq_dec Z.eq_dec [r; g; b] cur) as [Y|_]; [congruence|].
  unfold bind at 1. unfold bind at 1.
  rewrite (set_keyboard_backlight_sent r g b w1 p ps Hr Hg Hb E).
  reflexivity.
Qed.

Lemma concat_turns_length (k : nat) (turns : list (list string)) :
  Forall (fun files => List.length files = k) turns ->
  List.length (List.concat (map (map PreadBytes) turns)) =
  (List.length turns * k)%nat.
Proof.
  induction 1 as [|files rest Hf _ IH]; [reflexivity|].
  cbn [map List.concat List.length]. rewrite length_app, length_map, IH, Hf.
  lia.
Qed.

(** The writes of the loop are those of [writes_of]: [cur] is the
    last triple written, or the initial one, which no turn computes. *)
Lemma fire_cycles_log (fds : list Z) :
  fds <> [] ->
  forall (turns : list (list string)) (fuel : nat) (cur : list Z)
         (last : option (list Z)) (cs : list (list Z)) (w : world)
         (payloads : list (list Z)),
  Forall (fun files => List.length files = List.length fds) turns ->
  sensor_script w = List.concat (map (map PreadBytes) turns) ->
  bus_script w = map BusData payloads ->
  (List.length turns <= List.length payloads)%nat ->
  colours_of turns = Ok cs ->
  (List.length turns < fuel)%nat ->
  (cur = [256; 256; 256] /\ last = None) \/ last = Some cur ->
  bus_log (snd (Effects.fire_cycles fuel fds cur w)) =
  bus_log w ++ writes_of last cs.
Proof.
  intros Hne.
  induction turns as [|files rest IH];
    intros fuel cur last cs w payloads HF Es Eb Hl Ec Hfuel Hcur.
  - injection Ec as <-. cbn [writes_of]. rewrite app_nil_r.
    destruct fuel as [|fuel]; [reflexivity|]. cbn [Effects.fire_cycles].
    rewrite (bind_Unfinished_l _ _ w w); [reflexivity|].
    unfold Effects.fire_cycle. apply bind_Unfinished_l.
    apply hottest_from_exhausted; assumption.
  - cbn [colours_of] in Ec.
    destruct (colour_of files) as [c|e] eqn:Ecol; [|discriminate].
    cbn [rbind] in Ec.
    destruct (colours_of rest) as [cs'|e] eqn:Ecs; [|discriminate].
    injection Ec as <-.
    unfold colour_of in Ecol.
    destruct (hottest_of (PInt 0) files) as [temp|e] eqn:Eh; [|discriminate].
    cbn [rbind] in Ecol.
    inversion HF as [|? ? Hf HF']; subst. cbn [map List.concat] in Es.
    destruct (hottest_from_script fds files (PInt 0) temp w _ Hf Es Eh)
      as (w1 & Hh & Es1 & Elog1 & Ebus1).
    destruct (hottest_from_Done fds (PInt 0) w w1 temp (or_introl eq_refl) Hh)
      as (St & _).
    destruct (fire_colour_bytes temp St) as (r & g & b & Efc & Br & Bg & Bb).
    rewrite Efc in Ecol. injection Ecol as <-.
    destruct fuel as [|fuel]; [lia|]. cbn [Effects.fire_cycles].
    destruct payloads as [|p ps]; [simpl in Hl; lia|].
    assert (W : Effects.fire_cycle fds cur w =
                (Done [r; g; b], log_transfer (backlight_write [r; g; b]) w1) /\
                writes_of last ([r; g; b] :: cs') =
                backlight_write [r; g; b] :: writes_of (Some [r; g; b]) cs'
                \/
                Effects.fire_cycle fds cur w = (Done cur, w1) /\
                last = Some cur /\
                writes_of last ([r; g; b] :: cs') = writes_of last cs').
    { cbn [writes_of]. destruct Hcur as [[-> ->] | ->].
      - left. split; [|reflexivity].
        apply (fire_cycle_changed fds _ temp r g b w w1 p (map BusData ps));
          try assumption; [|rewrite Ebus1; exact Eb].
        intros [= -> _ _]. lia.
      - destruct (list_eq_dec Z.eq_dec [r; g; b] cur) as [<-|N].
        + right. split; [|split; reflexivity].
          apply (fire_cycle_same fds _ temp w w1); assumption.
        + left. split; [|reflexivity].
          apply (fire_cycle_changed fds _ temp r g b w w1 p (map BusData ps));
            try assumption. rewrite Ebus1; exact Eb. }
    destruct W as [[Wc Ww] | (Wc & -> & Ww)]; rewrite Ww;
      rewrite (bind_Done_l _ _ _ _ _ Wc).
    + rewrite (IH fuel [r; g; b] (Some [r; g; b]) cs' _ ps HF').
      * cbn [log_transfer bus_log]. rewrite Elog1, <- app_assoc. reflexivity.
      * cbn [log_transfer sensor_script]. exact Es1.
      * cbn [log_transfer bus_script]. rewrite Ebus1, Eb. reflexivity.
      * simpl in Hl. lia.
      * reflexivity.
      * simpl in Hfuel. lia.
      * right. reflexivity.
    + rewrite (IH fuel cur (Some cur) cs' _ (p :: ps) HF').
      * rewrite Elog1. reflexivity.
      * exact Es1.
      * rewrite Ebus1. exact Eb.
      * simpl in Hl |- *. lia.
      * reflexivity.
      * simpl in Hfuel. lia.
      * right. reflexivity.
Qed.

Lemma colours_of_repeat (files : list string) (c : list Z) (n : nat) :
  colour_of files = Ok c -> colours_of (repeat files n) = Ok (repeat c n).
Proof.
  intros E. induction n as [|n IH]; [reflexivity|].
  cbn [repeat colours_of]. rewrite E, IH. reflexivity.
Qed.

Lemma writes_of_repeat (c : list Z) (n : nat) :
  writes_of (Some c) (repeat c n) = [].
Proof.
  induction n as [|n IH]; [reflexivity|]. cbn [repeat writes_of].
  destruct (list_eq_dec Z.eq_dec c c); [exact IH | congruence].
Qed.

(** C8.  In [kb_backlight_fire], on a bus that answers, the transfers
    are exactly one backlight write for every turn whose triple
    differs from the last one written (the first turn always writes);
    in particular turns with identical samples give exactly one
    write. *)
Theorem kb_backlight_fire_writes (zones : list string) (fds : list Z)
    (w : world) (turns : list (list string)) (cs : list (list Z))
    (payloads : list (list Z)) :
  open_thermal_zones zones w = (Done fds, w) ->
  fds <> [] ->
  Forall (fun files => List.length files = List.length fds) turns ->
  sensor_script w = List.concat (map (map PreadBytes) turns) ->
  bus_script w = map BusData payloads ->
  (List.length turns <= List.length payloads)%nat ->
  colours_of turns = Ok cs ->
  bus_log (snd (Effects.kb_backlight_fire zones w)) =
    bus_log w ++ writes_of None cs /\
  (forall (files : list string) (n : nat),
     turns = repeat files (S n) ->
     exists c, colour_of files = Ok c /\
               bus_log (snd (Effects.kb_backlight_fire zones w)) =
               bus_log w ++ [backlight_write c]).
Proof.
  intros Ho Hne HF Es Eb Hl Ec.
  assert (L : bus_log (snd (Effects.kb_backlight_fire zones w)) =
              bus_log w ++ writes_of None cs).
  { unfold Effects.kb_backlight_fire. rewrite (bind_Done_l _ _ w w fds Ho).
    destruct fds as [|fd fds'] eqn:Ef; [congruence|]. rewrite <- Ef in *.
    apply (fire_cycles_log fds Hne turns _ _ None cs w payloads HF Es Eb Hl Ec).
    - rewrite Es, (concat_turns_length _ _ HF).
      assert (1 <= List.length fds)%nat by (rewrite Ef; simpl; lia). nia.
    - left. split; reflexivity. }
  split; [exact L|].
  intros files n ->. cbn [repeat colours_of] in Ec.
  destruct (colour_of files) as [c|e] eqn:Ecol; [|discriminate].
  exists c. split; [reflexivity|]. rewrite L.
  cbn [rbind] in Ec. rewrite (colours_of_repeat files c n Ecol) in Ec.
  injection Ec as <-. cbn [writes_of]. rewrite writes_of_repeat. reflexivity.
Qed.

Lemma kb_backlight_fire_writes_witness :
  bus_log (snd (Effects.kb_backlight_fire THERMAL_ZONES
                  (scripted [("thermal_zone0", "cpu0-0-top-thermal")]%string
                     [BusData []; BusData []; BusData []]
                     [PreadBytes "45000"; PreadBytes "45000";
                      PreadBytes "61000"]))) =
  [backlight_write [42; 4; 0]; backlight_write [178; 62; 51]].
Proof.
  set (w := scripted [("thermal_zone0", "cpu0-0-top-thermal")]%string
              [BusData []; BusData []; BusData []]
              [PreadBytes "45000"; PreadBytes "45000"; PreadBytes "61000"]).
  set (turns := [["45000"]; ["45000"]; ["61000"]]%string).
  assert (H1 : open_thermal_zones THERMAL_ZONES w = (Done [0], w))
    by (vm_compute; reflexivity).
  assert (H2 : [0] <> []) by discriminate.
  assert (H3 : Forall (fun files : list string =>
                         List.length files = List.length [0]) turns)
    by (repeat constructor).
  assert (H4 : sensor_script w = List.concat (map (map PreadBytes) turns))
    by reflexivity.
  assert (H5 : bus_script w = map BusData [[]; []; []]) by reflexivity.
  assert (H6 : (List.length turns <= List.length [[]; []; @nil Z])%nat)
    by (simpl; lia).
  assert (H7 : colours_of turns = Ok [[42; 4; 0]; [42; 4; 0]; [178; 62; 51]])
    by (vm_compute; reflexivity).
  destruct (kb_backlight_fire_writes THERMAL_ZONES [0] w turns _ _
              H1 H2 H3 H4 H5 H6 H7) as [L _].
  rewrite L. reflexivity.
Defined.
